(** * ARMKinetisDebug: the Kinetis extensions of the SWD debug probe

    Shallow embedding of [testjig/production/arm_kinetis_debug.cpp]
    (chip identification, reset-into-halt, peripheral bring-up and flash
    mass erase) together with the properties its specification states.

    The probe talks to the target through the primitives of its base class
    [ARMDebug].  They are kept abstract: a [Transport] answers every single
    access from a hardware state of its own, and each operation of the probe
    returns, next to its result and the final state, the list of accesses
    and diagnostics it issued, in program order. *)

From Stdlib Require Import ZArith List String Bool Lia.
Import ListNotations.
Set Warnings "-abstract-large-number".
Open Scope string_scope.
Open Scope list_scope.
Open Scope Z_scope.

(** ** Data model *)

(** Access-port registers named by the source.  The first three belong to
    the Freescale MDM-AP, the last three to the memory access port. *)
Inductive APReg : Type :=
  | REG_MDM_STATUS
  | REG_MDM_CONTROL
  | REG_MDM_IDR
  | MEM_CSW
  | MEM_TAR
  | MEM_DRW.

(** Verbosity levels.  The source names the first three; [LOG_VERBOSE]
    stands for the tracing levels above [LOG_NORMAL]. *)
Inductive LogLevel : Type :=
  | LOG_NONE
  | LOG_ERROR
  | LOG_NORMAL
  | LOG_VERBOSE (n : nat).

(** [uint32_t] conversion, used for the literal [-1] handed to the polling
    primitive. *)
Definition u32 (z : Z) : Z := z mod 2 ^ 32.

(** Bit masks and addresses of [arm_kinetis_reg.h] and [arm_debug.h].  The
    operations below only name these constants, so they are parameters of
    the development; [Sim.k20] gives the values of one chip. *)
Class KinetisRegs : Type := {
  REG_MDM_STATUS_FLASH_ERASE_ACK : Z;
  REG_MDM_STATUS_FLASH_READY : Z;
  REG_MDM_STATUS_SYS_SECURITY : Z;
  REG_MDM_STATUS_SYS_NRESET : Z;
  REG_MDM_STATUS_MASS_ERASE_ENABLE : Z;
  REG_MDM_CONTROL_MASS_ERASE : Z;
  REG_MDM_CONTROL_SYS_RESET_REQ : Z;
  REG_MDM_CONTROL_CORE_HOLD_RESET : Z;
  CSW_DBGSWENABLE : Z;
  CSW_MASTER_DEBUG : Z;
  CSW_HPROT : Z;
  CSW_32BIT : Z;
  CSW_ADDRINC_OFF : Z;
  REG_SCB_DHCSR : Z;
  REG_SIM_SCGC5 : Z;
  REG_SIM_SCGC6 : Z;
  REG_SIM_SCGC6_FTM0 : Z;
  REG_SIM_SCGC6_FTM1 : Z;
  REG_SIM_SCGC6_FTFL : Z;
  DEFAULT_RETRIES : nat
}.

(** One access or diagnostic, with its outcome.  A read carries [None] when
    the transport reported failure. *)
Inductive Event : Type :=
  | EvApRead (addr : APReg) (res : option Z)
  | EvApWrite (addr : APReg) (data : Z) (ok : bool)
  | EvMemStore (addr data : Z) (ok : bool)
  | EvMemLoad (addr : Z) (res : option Z)
  | EvInitMemPort (ok : bool)
  | EvLog (level : LogLevel) (msg : string) (args : list (option Z)).

(** An event together with the verbosity in force when it was issued. *)
Definition Entry : Type := (LogLevel * Event)%type.

(** The wire-level collaborator: every access is answered from a hardware
    state [H] that can change between any two accesses. *)
Record Transport (H : Type) : Type := {
  hw_apRead : APReg -> H -> option Z * H;
  hw_apWrite : APReg -> Z -> H -> bool * H;
  hw_memStore : Z -> Z -> H -> bool * H;
  hw_memLoad : Z -> H -> option Z * H;
  hw_initMemPort : H -> bool * H
}.

Arguments hw_apRead {H} _ _ _.
Arguments hw_apWrite {H} _ _ _ _.
Arguments hw_memStore {H} _ _ _ _.
Arguments hw_memLoad {H} _ _ _.
Arguments hw_initMemPort {H} _ _.

(** The probe object: the target behind the transport and the process-wide
    verbosity.  The transport never touches the verbosity. *)
Record Probe (H : Type) : Type := mkProbe {
  hw : H;
  logLevel : LogLevel
}.

Arguments mkProbe {H} _ _.
Arguments hw {H} _.
Arguments logLevel {H} _.

(** ** The probe monad: state passing plus an event log *)

Definition M (H A : Type) : Type := Probe H -> A * Probe H * list Entry.

Definition ret {H A : Type} (a : A) : M H A := fun s => (a, s, []).

Definition bind {H A B : Type} (m : M H A) (k : A -> M H B) : M H B :=
  fun s =>
    let '(a, s1, e1) := m s in
    let '(b, s2, e2) := k a s1 in
    (b, s2, e1 ++ e2).

Notation "x <- c ;; k" := (bind c (fun x => k))
  (at level 61, c at next level, right associativity).
Notation "c ;;; k" := (bind c (fun _ => k))
  (at level 61, right associativity).

Definition result {H A : Type} (r : A * Probe H * list Entry) : A := fst (fst r).
Definition final {H A : Type} (r : A * Probe H * list Entry) : Probe H := snd (fst r).
Definition events {H A : Type} (r : A * Probe H * list Entry) : list Entry := snd r.

(** The bare events of a log, without the verbosity stamps. *)
Definition bare (l : list Entry) : list Event := map snd l.

Section Primitives.

Context {H : Type} (T : Transport H).

(** The single-access primitives of the base class.  Each hands the access
    to the transport and records it with its outcome.  A read that fails
    yields no value: the variable it was to fill keeps what it held. *)
Definition apRead (addr : APReg) : M H (option Z) :=
  fun s =>
    let '(r, h) := hw_apRead T addr (hw s) in
    (r, mkProbe h (logLevel s), [(logLevel s, EvApRead addr r)]).

Definition apWrite (addr : APReg) (data : Z) : M H bool :=
  fun s =>
    let '(ok, h) := hw_apWrite T addr data (hw s) in
    (ok, mkProbe h (logLevel s), [(logLevel s, EvApWrite addr data ok)]).

Definition memStore (addr data : Z) : M H bool :=
  fun s =>
    let '(ok, h) := hw_memStore T addr data (hw s) in
    (ok, mkProbe h (logLevel s), [(logLevel s, EvMemStore addr data ok)]).

Definition memLoad (addr : Z) : M H (option Z) :=
  fun s =>
    let '(r, h) := hw_memLoad T addr (hw s) in
    (r, mkProbe h (logLevel s), [(logLevel s, EvMemLoad addr r)]).

(** The re-initialisation of the memory port, answered by the transport
    as a whole. *)
Definition initMemPort : M H bool :=
  fun s =>
    let '(ok, h) := hw_initMemPort T (hw s) in
    (ok, mkProbe h (logLevel s), [(logLevel s, EvInitMemPort ok)]).

(** Modelled from the spec: [log] of the base class ("log(level, message):
    diagnostics, consumed as a side-channel, not part of control flow").
    The call is recorded with its arguments; an argument is [None] when the
    variable handed over was never assigned. *)
Definition log (level : LogLevel) (msg : string) (args : list (option Z))
  : M H unit :=
  fun s => (tt, s, [(logLevel s, EvLog level msg args)]).

(** Modelled from the spec: [setLogLevel] of the base class, which is
    missing from the sources ("setLogLevel(newLevel) -> previousLevel:
    diagnostics with save/restore semantics").  This is the overload with
    an out-parameter for the previous level. *)
Definition setLogLevelSave (newLevel : LogLevel) : M H LogLevel :=
  fun s => (logLevel s, mkProbe (hw s) newLevel, []).

(** Modelled from the spec: the one-argument [setLogLevel], missing from
    the sources; it installs the level it is given. *)
Definition setLogLevel (newLevel : LogLevel) : M H unit :=
  fun s => (tt, mkProbe (hw s) newLevel, []).

(** Modelled from the spec: the comparison made by [apReadPoll], missing
    from the sources ("read, mask, compare to an expected masked value,
    where all-ones as expected means the mask bits must all be set"). *)
Definition pollMatch (mask expected data : Z) : bool :=
  Z.land data mask =? Z.land expected mask.

(** Modelled from the spec: [apReadPoll] of the base class, missing from
    the sources ("repeatedly read, mask, compare to an expected masked
    value, succeed on first match, fail after retries exhausted; returns
    the last-read value regardless of outcome").  One read is followed by
    at most [retries] further reads; a read the transport fails ends the
    poll with failure. *)
Fixpoint apReadPollFrom (addr : APReg) (mask expected : Z) (retries : nat)
    (last : option Z) : M H (bool * option Z) :=
  r <- apRead addr ;;
  match r with
  | None => ret (false, last)
  | Some data =>
      if pollMatch mask expected data then ret (true, Some data)
      else
        match retries with
        | O => ret (false, Some data)
        | S n => apReadPollFrom addr mask expected n (Some data)
        end
  end.

(** Modelled from the spec: the entry point of the poll; no value has been
    read when it starts. *)
Definition apReadPoll (addr : APReg) (mask expected : Z) (retries : nat)
  : M H (bool * option Z) :=
  apReadPollFrom addr mask expected retries None.

(** Modelled from the spec: [memStoreAndVerify] of the base class, missing
    from the sources ("memory-mapped write with write-then-read
    verification": the pattern is written and must be read back
    identically). *)
Definition memStoreAndVerify (addr data : Z) : M H bool :=
  ok <- memStore addr data ;;
  if negb ok then ret false
  else
    r <- memLoad addr ;;
    match r with
    | None => ret false
    | Some actual => ret (actual =? data)
    end.

End Primitives.

(** ** The operations of [ARMKinetisDebug] *)

Section Kinetis.

Context {K : KinetisRegs} {H : Type} (T : Transport H).

Definition detect : M H bool :=
  idr <- apRead T REG_MDM_IDR ;;
  match idr with
  | None => ret false
  | Some idr =>
      if negb (idr =? 0x001C0000) then
        log LOG_ERROR "ARMKinetisDebug: Didn't find a supported MDM-AP peripheral" [] ;;;
        ret false
      else ret true
  end.

(** [dhcsr & (1 << 17)] *)
Definition halted (dhcsr : Z) : bool :=
  negb (Z.land dhcsr (Z.shiftl 1 17) =? 0).

(** The [while (haltRetries)] loop.  The result is the pair of the loop's
    two variables when it is left: the counter and [dhcsr], which holds a
    value only once a readback has stored one. *)
Fixpoint haltLoop (haltRetries : nat) (dhcsr : option Z)
  : M H (nat * option Z) :=
  match haltRetries with
  | O => ret (O, dhcsr)
  | S haltRetries =>
      ok <- apWrite T MEM_DRW 0xA05F0003 ;;
      if negb ok then haltLoop haltRetries dhcsr
      else
        r <- apRead T MEM_DRW ;;
        match r with
        | None => haltLoop haltRetries dhcsr
        | Some v =>
            if halted v then ret (haltRetries, Some v)
            else haltLoop haltRetries (Some v)
        end
  end.

Definition resetRetries : nat := 2000.

Definition resetHalt : M H bool :=
  ok <- apWrite T REG_MDM_CONTROL REG_MDM_CONTROL_CORE_HOLD_RESET ;;
  if negb ok then ret false else
  p <- apReadPoll T REG_MDM_STATUS REG_MDM_STATUS_SYS_NRESET (u32 (-1))
         resetRetries ;;
  if negb (fst p) then ret false else
  ok <- apWrite T REG_MDM_CONTROL REG_MDM_CONTROL_SYS_RESET_REQ ;;
  if negb ok then ret false else
  p <- apReadPoll T REG_MDM_STATUS REG_MDM_STATUS_SYS_NRESET 0
         DEFAULT_RETRIES ;;
  if negb (fst p) then ret false else
  ok <- apWrite T REG_MDM_CONTROL 0 ;;
  if negb ok then ret false else
  p <- apReadPoll T REG_MDM_STATUS
         (Z.lor (Z.lor REG_MDM_STATUS_SYS_NRESET REG_MDM_STATUS_FLASH_READY)
                REG_MDM_STATUS_SYS_SECURITY)
         (Z.lor REG_MDM_STATUS_SYS_NRESET REG_MDM_STATUS_FLASH_READY)
         resetRetries ;;
  if negb (fst p) then ret false else
  ok <- apWrite T MEM_CSW
          (Z.lor (Z.lor (Z.lor (Z.lor CSW_DBGSWENABLE CSW_MASTER_DEBUG)
                               CSW_HPROT) CSW_32BIT) CSW_ADDRINC_OFF) ;;
  if negb ok then ret false else
  ok <- apWrite T MEM_TAR REG_SCB_DHCSR ;;
  if negb ok then ret false else
  savedLogLevel <- setLogLevelSave LOG_NONE ;;
  l <- haltLoop 200 None ;;
  initMemPort T ;;;
  setLogLevel savedLogLevel ;;;
  if negb (fst l =? 0)%nat then
    log LOG_NORMAL "CPU reset & halt successful. Now in debug mode." [] ;;;
    ret true
  else
    log LOG_ERROR
      "ARMKinetisDebug: Failed to put CPU in debug halt state. (DHCSR: %08x)"
      [snd l] ;;;
    ret false.

Definition peripheralInit : M H bool :=
  ok <- memStore T REG_SIM_SCGC5 0x00043F82 ;;
  if negb ok then ret false else
  ok <- memStore T REG_SIM_SCGC6
          (Z.lor (Z.lor REG_SIM_SCGC6_FTM0 REG_SIM_SCGC6_FTM1)
                 REG_SIM_SCGC6_FTFL) ;;
  if negb ok then ret false else
  ok <- memStoreAndVerify T 0x20000000 0x31415927 ;;
  if negb ok then ret false else
  ok <- memStoreAndVerify T 0x20000000 0x76543210 ;;
  if negb ok then ret false else
  ret true.

(** [status & flag] read as a C condition. *)
Definition flagSet (status flag : Z) : bool :=
  negb (Z.land status flag =? 0).

Definition flashMassErase : M H bool :=
  r <- apRead T REG_MDM_STATUS ;;
  match r with
  | None => ret false
  | Some status =>
      if negb (flagSet status REG_MDM_STATUS_FLASH_READY) then
        log LOG_ERROR "FLASH: Flash controller not ready before mass erase" [] ;;;
        ret false
      else if flagSet status REG_MDM_STATUS_FLASH_ERASE_ACK then
        log LOG_ERROR "FLASH: Mass erase already in progress" [] ;;;
        ret false
      else if negb (flagSet status REG_MDM_STATUS_MASS_ERASE_ENABLE) then
        log LOG_ERROR "FLASH: Mass erase is disabled!" [] ;;;
        ret false
      else
        log LOG_NORMAL "FLASH: Beginning mass erase operation" [] ;;;
        ok <- apWrite T REG_MDM_CONTROL
                (Z.lor REG_MDM_CONTROL_CORE_HOLD_RESET
                       REG_MDM_CONTROL_MASS_ERASE) ;;
        if negb ok then ret false else
        p <- apReadPoll T REG_MDM_STATUS REG_MDM_STATUS_FLASH_ERASE_ACK
               (u32 (-1)) DEFAULT_RETRIES ;;
        if negb (fst p) then
          log LOG_ERROR "FLASH: Timed out waiting for mass erase to begin" [] ;;;
          ret false
        else
        p <- apReadPoll T REG_MDM_CONTROL REG_MDM_CONTROL_MASS_ERASE 0
               10000 ;;
        if negb (fst p) then
          log LOG_ERROR "FLASH: Timed out waiting for mass erase to complete" [] ;;;
          ret false
        else
        r <- apRead T REG_MDM_STATUS ;;
        match r with
        | None => ret false
        | Some status =>
            if negb (flagSet status REG_MDM_STATUS_FLASH_READY) then
              log LOG_ERROR "FLASH: Flash controller not ready after mass erase" [] ;;;
              ret false
            else
              log LOG_NORMAL "FLASH: Mass erase complete" [] ;;;
              ret true
        end
  end.

Definition startup : M H bool :=
  ok <- detect ;;
  if negb ok then ret false else
  ok <- resetHalt ;;
  if negb ok then ret false else
  peripheralInit.

End Kinetis.

(** ** The five phases of [resetHalt]

    The source delimits them by its comments; each fragment below is the
    corresponding run of statements, and [resetHalt_phases] shows that
    [resetHalt] is their short-circuit composition. *)

Section Phases.

Context {K : KinetisRegs} {H : Type} (T : Transport H).

Definition andThen (p q : M H bool) : M H bool :=
  ok <- p ;; if negb ok then ret false else q.

(** Phase 1: hold the core in reset and wait for the reset line. *)
Definition phase1 : M H bool :=
  ok <- apWrite T REG_MDM_CONTROL REG_MDM_CONTROL_CORE_HOLD_RESET ;;
  if negb ok then ret false else
  p <- apReadPoll T REG_MDM_STATUS REG_MDM_STATUS_SYS_NRESET (u32 (-1))
         resetRetries ;;
  ret (fst p).

(** Phase 2: system reset, then release the request. *)
Definition phase2 : M H bool :=
  ok <- apWrite T REG_MDM_CONTROL REG_MDM_CONTROL_SYS_RESET_REQ ;;
  if negb ok then ret false else
  p <- apReadPoll T REG_MDM_STATUS REG_MDM_STATUS_SYS_NRESET 0
         DEFAULT_RETRIES ;;
  if negb (fst p) then ret false else
  apWrite T REG_MDM_CONTROL 0.

Definition safeMask : Z :=
  Z.lor (Z.lor REG_MDM_STATUS_SYS_NRESET REG_MDM_STATUS_FLASH_READY)
        REG_MDM_STATUS_SYS_SECURITY.

Definition safeExpected : Z :=
  Z.lor REG_MDM_STATUS_SYS_NRESET REG_MDM_STATUS_FLASH_READY.

(** Phase 3: wait until the chip is out of reset, flash is ready and the
    security bit has cleared. *)
Definition phase3 : M H bool :=
  p <- apReadPoll T REG_MDM_STATUS safeMask safeExpected resetRetries ;;
  ret (fst p).

(** Phase 4: set up CSW and point TAR at DHCSR. *)
Definition phase4 : M H bool :=
  ok <- apWrite T MEM_CSW
          (Z.lor (Z.lor (Z.lor (Z.lor CSW_DBGSWENABLE CSW_MASTER_DEBUG)
                               CSW_HPROT) CSW_32BIT) CSW_ADDRINC_OFF) ;;
  if negb ok then ret false else
  apWrite T MEM_TAR REG_SCB_DHCSR.

Definition haltFailure : string :=
  "ARMKinetisDebug: Failed to put CPU in debug halt state. (DHCSR: %08x)".

(** The verdict logged at the end of the race. *)
Definition verdict (ok : bool) (dhcsr : option Z) : Event :=
  if ok then
    EvLog LOG_NORMAL "CPU reset & halt successful. Now in debug mode." []
  else EvLog LOG_ERROR haltFailure [dhcsr].

(** Phase 5: the race for halt with its cleanup. *)
Definition phase5 : M H bool :=
  savedLogLevel <- setLogLevelSave LOG_NONE ;;
  l <- haltLoop T 200 None ;;
  initMemPort T ;;;
  setLogLevel savedLogLevel ;;;
  if negb (fst l =? 0)%nat then
    log LOG_NORMAL "CPU reset & halt successful. Now in debug mode." [] ;;;
    ret true
  else
    log LOG_ERROR haltFailure [snd l] ;;;
    ret false.

(** Phases 1 to 3: the reset, up to the safe state. *)
Definition resetPhases : M H bool :=
  andThen phase1 (andThen phase2 phase3).

(** The state phase 3 waits for: out of reset, flash ready, not secured. *)
Definition safeState (status : Z) : Prop :=
  Z.land status REG_MDM_STATUS_SYS_NRESET = REG_MDM_STATUS_SYS_NRESET
  /\ Z.land status REG_MDM_STATUS_FLASH_READY = REG_MDM_STATUS_FLASH_READY
  /\ Z.land status REG_MDM_STATUS_SYS_SECURITY = 0.

(** Phases 1 to 4: everything before the race for halt. *)
Definition preHalt : M H bool :=
  andThen phase1 (andThen phase2 (andThen phase3 phase4)).

End Phases.

(** ** The diagnostics of the source, by name *)

Definition unsupportedPeripheral : string :=
  "ARMKinetisDebug: Didn't find a supported MDM-AP peripheral".

Definition notReadyBefore : string :=
  "FLASH: Flash controller not ready before mass erase".

Definition alreadyInProgress : string :=
  "FLASH: Mass erase already in progress".

Definition eraseDisabled : string :=
  "FLASH: Mass erase is disabled!".

Definition notBegun : string :=
  "FLASH: Timed out waiting for mass erase to begin".

Definition notCompleted : string :=
  "FLASH: Timed out waiting for mass erase to complete".

Definition notReadyAfter : string :=
  "FLASH: Flash controller not ready after mass erase".

(** ** The log of a successful peripheral bring-up *)

Definition ramTestAddress : Z := 0x20000000.
Definition ramPattern1 : Z := 0x31415927.
Definition ramPattern2 : Z := 0x76543210.

Definition bringUpLog {K : KinetisRegs} : list Event :=
  [EvMemStore REG_SIM_SCGC5 0x00043F82 true;
   EvMemStore REG_SIM_SCGC6
     (Z.lor (Z.lor REG_SIM_SCGC6_FTM0 REG_SIM_SCGC6_FTM1) REG_SIM_SCGC6_FTFL)
     true;
   EvMemStore ramTestAddress ramPattern1 true;
   EvMemLoad ramTestAddress (Some ramPattern1);
   EvMemStore ramTestAddress ramPattern2 true;
   EvMemLoad ramTestAddress (Some ramPattern2)].

(** ** Observations on event logs *)

Definition APReg_eqb (a b : APReg) : bool :=
  match a, b with
  | REG_MDM_STATUS, REG_MDM_STATUS
  | REG_MDM_CONTROL, REG_MDM_CONTROL
  | REG_MDM_IDR, REG_MDM_IDR
  | MEM_CSW, MEM_CSW
  | MEM_TAR, MEM_TAR
  | MEM_DRW, MEM_DRW => true
  | _, _ => false
  end.

(** The values written to [addr], in order, whatever their outcome. *)
Fixpoint writesTo (addr : APReg) (l : list Entry) : list Z :=
  match l with
  | [] => []
  | (_, EvApWrite a v _) :: l' =>
      if APReg_eqb a addr then v :: writesTo addr l' else writesTo addr l'
  | _ :: l' => writesTo addr l'
  end.

(** The answers to the reads of [addr], in order. *)
Fixpoint readsOf (addr : APReg) (l : list Entry) : list (option Z) :=
  match l with
  | [] => []
  | (_, EvApRead a r) :: l' =>
      if APReg_eqb a addr then r :: readsOf addr l' else readsOf addr l'
  | _ :: l' => readsOf addr l'
  end.

(** All AP writes, to any register. *)
Fixpoint apWrites (l : list Entry) : list (APReg * Z) :=
  match l with
  | [] => []
  | (_, EvApWrite a v _) :: l' => (a, v) :: apWrites l'
  | _ :: l' => apWrites l'
  end.

(** The messages logged at [LOG_ERROR], in order. *)
Fixpoint errors (l : list Entry) : list string :=
  match l with
  | [] => []
  | (_, EvLog LOG_ERROR msg _) :: l' => msg :: errors l'
  | _ :: l' => errors l'
  end.

(** Number of calls of [initMemPort]. *)
Fixpoint cleanups (l : list Entry) : nat :=
  match l with
  | [] => O
  | (_, EvInitMemPort _) :: l' => S (cleanups l')
  | _ :: l' => cleanups l'
  end.

(** The value [dhcsr] holds after the accesses of [l], starting from [d]:
    that of the last readback of [MEM_DRW] that succeeded. *)
Fixpoint lastReadback (d : option Z) (l : list Entry) : option Z :=
  match l with
  | [] => d
  | (_, EvApRead MEM_DRW (Some v)) :: l' => lastReadback (Some v) l'
  | _ :: l' => lastReadback d l'
  end.

(** A single AP register access the transport failed. *)
Definition failedAccess (e : Event) : bool :=
  match e with
  | EvApRead _ None => true
  | EvApWrite _ _ false => true
  | _ => false
  end.

(** Any access of the target, as opposed to a diagnostic. *)
Definition isAccess (e : Event) : bool :=
  match e with
  | EvLog _ _ _ => false
  | _ => true
  end.

(** The register of an AP access. *)
Definition accessReg (e : Event) : option APReg :=
  match e with
  | EvApRead a _ => Some a
  | EvApWrite a _ _ => Some a
  | _ => None
  end.

(** An access through the memory port: CSW, TAR, DRW or its
    re-initialisation. *)
Definition memPortAccess (e : Event) : bool :=
  match e with
  | EvApRead (MEM_CSW | MEM_TAR | MEM_DRW) _ => true
  | EvApWrite (MEM_CSW | MEM_TAR | MEM_DRW) _ _ => true
  | EvInitMemPort _ => true
  | _ => false
  end.

Definition onHaltRace (e : Event) : bool :=
  match accessReg e with
  | Some MEM_DRW => true
  | _ => false
  end.

(** The trivial class of accesses, and the accesses outside the halt
    race. *)
Definition anyAccess (e : Event) : bool := true.

Definition offHaltRace (e : Event) : bool := negb (onHaltRace e).

(** [failStops P l]: every failed AP access of [l] that satisfies [P] is the
    last access of [l]; only diagnostics follow it. *)
Fixpoint failStops (P : Event -> bool) (l : list Entry) : bool :=
  match l with
  | [] => true
  | (_, e) :: l' =>
      if failedAccess e && P e then forallb (fun x => negb (isAccess (snd x))) l'
      else failStops P l'
  end.

(** A log of diagnostics only. *)
Definition quiet (l : list Entry) : bool :=
  forallb (fun x => negb (isAccess (snd x))) l.

(** Some AP access of [l] satisfying [P] failed. *)
Definition anyFailed (P : Event -> bool) (l : list Entry) : bool :=
  existsb (fun x => failedAccess (snd x) && P (snd x)) l.

(** The log of one poll of [addr] at verbosity [lvl]: reads that do not
    match, ended by a read that matches (the poll succeeds), by a read the
    transport fails, or by the last read the budget allows. *)
Inductive PollLog (lvl : LogLevel) (addr : APReg) (mask expected : Z)
  : bool -> list Entry -> Prop :=
  | PollHit (v : Z) :
      pollMatch mask expected v = true ->
      PollLog lvl addr mask expected true [(lvl, EvApRead addr (Some v))]
  | PollFail :
      PollLog lvl addr mask expected false [(lvl, EvApRead addr None)]
  | PollLast (v : Z) :
      pollMatch mask expected v = false ->
      PollLog lvl addr mask expected false [(lvl, EvApRead addr (Some v))]
  | PollMiss (v : Z) (ok : bool) (l : list Entry) :
      pollMatch mask expected v = false ->
      PollLog lvl addr mask expected ok l ->
      PollLog lvl addr mask expected ok ((lvl, EvApRead addr (Some v)) :: l).

(** The accesses of phases 1 to 3 of [resetHalt]: writes of Control and
    reads of Status. *)
Definition resetEvent (e : Event) : bool :=
  match e with
  | EvApWrite REG_MDM_CONTROL _ _ => true
  | EvApRead REG_MDM_STATUS _ => true
  | _ => false
  end.

(** The accesses of phases 1 to 4: those of the reset, and the writes that
    set up CSW and TAR. *)
Definition preHaltEvent (e : Event) : bool :=
  match e with
  | EvApWrite (REG_MDM_CONTROL | MEM_CSW | MEM_TAR) _ _ => true
  | EvApRead REG_MDM_STATUS _ => true
  | _ => false
  end.

(** A poll used for its verdict only, as the source does with every poll:
    the value left in the out-parameter is never looked at. *)
Definition polled {H : Type} (m : M H (bool * option Z)) : M H bool :=
  p <- m ;; ret (fst p).

(** [Disciplined Q m]: whatever the target does, [m] leaves the verbosity
    as it found it, issues only events of the class [Q], all at that
    verbosity, stops at the first AP access that fails, and succeeds only
    if none failed. *)
Definition Disciplined {H : Type} (Q : Event -> bool) (m : M H bool) : Prop :=
  forall s : Probe H,
    let out := m s in
    logLevel (final out) = logLevel s
    /\ Forall (fun x => fst x = logLevel s /\ Q (snd x) = true) (events out)
    /\ (forall P, failStops P (events out) = true)
    /\ (forall P, result out = true -> anyFailed P (events out) = false).

(** The answers the transport gives to [n] successive reads of [addr]. *)
Fixpoint answers {H : Type} (T : Transport H) (addr : APReg) (n : nat) (h : H)
  : list (option Z) :=
  match n with
  | O => []
  | S n' =>
      let '(r, h') := hw_apRead T addr h in
      r :: answers T addr n' h'
  end.

(** ** A scripted target

    A transport that answers the accesses, whichever they are, from a list
    of prepared answers: [Some v] is a read of [v] or an acknowledged
    write, [None] a failed access.  An exhausted script fails. *)

Module Sim.

Definition Script : Type := list (option Z).

Definition next (h : Script) : option Z * Script :=
  match h with
  | [] => (None, [])
  | r :: h' => (r, h')
  end.

Definition acked (h : Script) : bool * Script :=
  match h with
  | Some _ :: h' => (true, h')
  | None :: h' => (false, h')
  | [] => (false, [])
  end.

Definition scripted : Transport Script :=
  {| hw_apRead := fun _ h => next h;
     hw_apWrite := fun _ _ h => acked h;
     hw_memStore := fun _ _ h => acked h;
     hw_memLoad := fun _ h => next h;
     hw_initMemPort := fun h => acked h |}.

(** The register layout of the MK20DX128. *)
Definition k20 : KinetisRegs :=
  {| REG_MDM_STATUS_FLASH_ERASE_ACK := Z.shiftl 1 0;
     REG_MDM_STATUS_FLASH_READY := Z.shiftl 1 1;
     REG_MDM_STATUS_SYS_SECURITY := Z.shiftl 1 2;
     REG_MDM_STATUS_SYS_NRESET := Z.shiftl 1 3;
     REG_MDM_STATUS_MASS_ERASE_ENABLE := Z.shiftl 1 5;
     REG_MDM_CONTROL_MASS_ERASE := Z.shiftl 1 0;
     REG_MDM_CONTROL_SYS_RESET_REQ := Z.shiftl 1 3;
     REG_MDM_CONTROL_CORE_HOLD_RESET := Z.shiftl 1 4;
     CSW_DBGSWENABLE := Z.shiftl 1 31;
     CSW_MASTER_DEBUG := Z.shiftl 1 29;
     CSW_HPROT := Z.shiftl 1 25;
     CSW_32BIT := 2;
     CSW_ADDRINC_OFF := 0;
     REG_SCB_DHCSR := 0xE000EDF0;
     REG_SIM_SCGC5 := 0x40048038;
     REG_SIM_SCGC6 := 0x4004803C;
     REG_SIM_SCGC6_FTM0 := Z.shiftl 1 24;
     REG_SIM_SCGC6_FTM1 := Z.shiftl 1 25;
     REG_SIM_SCGC6_FTFL := Z.shiftl 1 0;
     DEFAULT_RETRIES := 50 |}.

Definition ack : option Z := Some 0.

(** A probe in front of the script, at verbosity [LOG_NORMAL]. *)
Definition probe (h : Script) : Probe Script := mkProbe h LOG_NORMAL.

(** Phases 1 to 4 of [resetHalt] meeting a target that answers at once:
    reset line high, then low, then high with flash ready. *)
Definition resetScript : Script :=
  [ack; Some 0x08; ack; Some 0x00; ack; Some 0x0A; ack; ack].

(** One attempt of the halt race that reads back [v]. *)
Definition attempt (v : Z) : Script := [ack; Some v].

(** [n] attempts that read back a running core. *)
Definition running (n : nat) : Script :=
  List.concat (repeat (attempt 0x01000003) n).

Definition haltedValue : Z := 0x00030003.

End Sim.

(** ** Classes of events used to describe what an operation touches *)

(** Memory-mapped accesses: the only events of [peripheralInit]. *)
Definition memEvent (e : Event) : bool :=
  match e with
  | EvMemStore _ _ _ | EvMemLoad _ _ => true
  | _ => false
  end.

(** A memory-mapped access the transport failed. *)
Definition memFailed (e : Event) : bool :=
  match e with
  | EvMemStore _ _ false | EvMemLoad _ None => true
  | _ => false
  end.

(** [memFailStops l]: a failed memory access of [l] is its last event. *)
Fixpoint memFailStops (l : list Entry) : bool :=
  match l with
  | [] => true
  | (_, e) :: l' =>
      if memFailed e then match l' with [] => true | _ :: _ => false end
      else memFailStops l'
  end.

(** The events of [resetHalt]: those of phases 1 to 4, the accesses of the
    halt race, the re-initialisation of the memory port and diagnostics. *)
Definition resetHaltEvent (e : Event) : bool :=
  match e with
  | EvInitMemPort _ | EvLog _ _ _ => true
  | _ => preHaltEvent e || onHaltRace e
  end.

(** The events of [flashMassErase]: reads of Status and Control, writes of
    Control, diagnostics. *)
Definition eraseEvent (e : Event) : bool :=
  match e with
  | EvApRead (REG_MDM_STATUS | REG_MDM_CONTROL) _ => true
  | EvApWrite REG_MDM_CONTROL _ _ => true
  | EvLog _ _ _ => true
  | _ => false
  end.

(** The events of [startup]: the read of the identity register, then what
    [resetHalt] and [peripheralInit] do. *)
Definition startupEvent (e : Event) : bool :=
  match e with
  | EvApRead REG_MDM_IDR _ => true
  | _ => resetHaltEvent e || memEvent e
  end.

(** The values [resetHalt] writes to Control, in order. *)
Definition controlSequence {K : KinetisRegs} : list Z :=
  [REG_MDM_CONTROL_CORE_HOLD_RESET; REG_MDM_CONTROL_SYS_RESET_REQ; 0].

(** The control word [resetHalt] writes to CSW. *)
Definition cswSetup {K : KinetisRegs} : Z :=
  Z.lor (Z.lor (Z.lor (Z.lor CSW_DBGSWENABLE CSW_MASTER_DEBUG) CSW_HPROT)
               CSW_32BIT) CSW_ADDRINC_OFF.

(** The debug key with the halt and debug-enable requests, written to
    DHCSR by every attempt of the halt race. *)
Definition haltRequest : Z := 0xA05F0003.

(** The request [flashMassErase] writes to Control. *)
Definition eraseRequest {K : KinetisRegs} : Z :=
  Z.lor REG_MDM_CONTROL_CORE_HOLD_RESET REG_MDM_CONTROL_MASS_ERASE.


(** The writes of a complete [resetHalt] whose halt race takes [n]
    attempts: Control three times, the set-up of CSW and TAR, then the halt
    request once per attempt. *)
Definition resetHaltWrites {K : KinetisRegs} (n : nat) : list (APReg * Z) :=
  [(REG_MDM_CONTROL, REG_MDM_CONTROL_CORE_HOLD_RESET);
   (REG_MDM_CONTROL, REG_MDM_CONTROL_SYS_RESET_REQ);
   (REG_MDM_CONTROL, 0);
   (MEM_CSW, cswSetup);
   (MEM_TAR, REG_SCB_DHCSR)]
  ++ repeat (MEM_DRW, haltRequest) n.


(** * Properties *)

(** ** Event logs *)

Lemma writesTo_app (a : APReg) (l1 l2 : list Entry) :
  writesTo a (l1 ++ l2) = writesTo a l1 ++ writesTo a l2.
Proof.
  induction l1 as [|[lv e] l1 IH]; simpl; auto.
  destruct e; auto. destruct (APReg_eqb addr a); simpl; congruence.
Qed.

Lemma readsOf_app (a : APReg) (l1 l2 : list Entry) :
  readsOf a (l1 ++ l2) = readsOf a l1 ++ readsOf a l2.
Proof.
  induction l1 as [|[lv e] l1 IH]; simpl; auto.
  destruct e; auto. destruct (APReg_eqb addr a); simpl; congruence.
Qed.

Lemma apWrites_app (l1 l2 : list Entry) :
  apWrites (l1 ++ l2) = apWrites l1 ++ apWrites l2.
Proof.
  induction l1 as [|[lv e] l1 IH]; simpl; auto.
  destruct e; auto. simpl; congruence.
Qed.

Lemma writesTo_apWrites (a : APReg) (l : list Entry) :
  writesTo a l =
    map snd (filter (fun p => APReg_eqb (fst p) a) (apWrites l)).
Proof.
  induction l as [|[lv e] l IH]; simpl; auto.
  destruct e; auto. simpl. destruct (APReg_eqb addr a); simpl; congruence.
Qed.

Lemma errors_app (l1 l2 : list Entry) :
  errors (l1 ++ l2) = errors l1 ++ errors l2.
Proof.
  induction l1 as [|[lv e] l1 IH]; simpl; auto.
  destruct e; auto. destruct level; simpl; congruence.
Qed.

Lemma cleanups_app (l1 l2 : list Entry) :
  cleanups (l1 ++ l2) = (cleanups l1 + cleanups l2)%nat.
Proof.
  induction l1 as [|[lv e] l1 IH]; simpl; auto.
  destruct e; auto. simpl; congruence.
Qed.

Lemma lastReadback_app (d : option Z) (l1 l2 : list Entry) :
  lastReadback d (l1 ++ l2) = lastReadback (lastReadback d l1) l2.
Proof.
  revert d; induction l1 as [|[lv e] l1 IH]; intros d; simpl; auto.
  destruct e; auto. destruct addr; auto. destruct res; auto.
Qed.

Lemma failStops_app_clean (P : Event -> bool) (l1 l2 : list Entry) :
  anyFailed P l1 = false ->
  failStops P (l1 ++ l2) = failStops P l2.
Proof.
  unfold anyFailed.
  induction l1 as [|[lv e] l1 IH]; simpl; auto.
  intros E. apply orb_false_iff in E as [E1 E2]. rewrite E1. auto.
Qed.

Lemma failStops_app_quiet (P : Event -> bool) (l1 l2 : list Entry) :
  failStops P l1 = true -> quiet l2 = true ->
  failStops P (l1 ++ l2) = true.
Proof.
  unfold quiet.
  induction l1 as [|[lv e] l1 IH]; simpl; intros E1 E2.
  - induction l2 as [|[lv e] l2 IH]; simpl in *; auto.
    apply andb_true_iff in E2 as [E2 E3].
    destruct e; simpl in *; try discriminate. auto.
  - destruct (failedAccess e && P e); auto.
    rewrite forallb_app. apply andb_true_iff. split; assumption.
Qed.

Lemma anyFailed_app (P : Event -> bool) (l1 l2 : list Entry) :
  anyFailed P (l1 ++ l2) = anyFailed P l1 || anyFailed P l2.
Proof. unfold anyFailed. apply existsb_app. Qed.

(** What [failStops] says, spelled out on a split of the log. *)
Lemma failStops_split (P : Event -> bool) (l pre post : list Entry)
    (x : Entry) :
  failStops P l = true ->
  l = pre ++ x :: post ->
  failedAccess (snd x) = true -> P (snd x) = true ->
  Forall (fun y => isAccess (snd y) = false) post.
Proof.
  intros F -> Fx Px. revert F.
  induction pre as [|[lv e] pre IH]; simpl.
  - destruct x as [lv e]; simpl in *. rewrite Fx, Px. simpl.
    intros F. apply Forall_forall. intros y Hy.
    rewrite forallb_forall in F. apply F in Hy.
    now apply negb_true_iff in Hy.
  - destruct (failedAccess e && P e); auto.
    rewrite forallb_app. intros F. apply andb_true_iff in F as [_ F].
    simpl in F. apply andb_true_iff in F as [F _].
    destruct x as [lv' e']; simpl in *.
    destruct e'; simpl in *; discriminate.
Qed.

(** ** The polling primitive *)

Section PollFacts.

Context {H : Type} (T : Transport H).
Variables (addr : APReg) (mask expected : Z).

Lemma apReadPollFrom_log (retries : nat) :
  forall (last : option Z) (s : Probe H) ok v s' evs,
    apReadPollFrom T addr mask expected retries last s = (ok, v, s', evs) ->
    PollLog (logLevel s) addr mask expected ok evs
    /\ logLevel s' = logLevel s
    /\ (List.length evs <= S retries)%nat.
Proof.
  induction retries as [|n IH]; intros last s ok v s' evs E;
    simpl in E; unfold bind, apRead, ret in E;
    destruct (hw_apRead T addr (hw s)) as [[data|] h];
    try destruct (pollMatch mask expected data) eqn:Em.
  1-4, 6: inversion E; subst; simpl; repeat split; auto;
          try (constructor; assumption); lia.
  destruct (apReadPollFrom T addr mask expected n (Some data)
              (mkProbe h (logLevel s))) as [[[ok1 v1] s1] e1] eqn:E1.
  inversion E; subst. apply IH in E1 as (L & Lv & Len). simpl in *.
  repeat split; auto; [constructor; assumption | lia].
Qed.

Lemma apReadPoll_log (retries : nat) (s : Probe H) ok v s' evs :
  apReadPoll T addr mask expected retries s = (ok, v, s', evs) ->
  PollLog (logLevel s) addr mask expected ok evs
  /\ logLevel s' = logLevel s
  /\ (List.length evs <= S retries)%nat.
Proof. apply apReadPollFrom_log. Qed.

(** A target that never shows the awaited value makes the poll fail after
    one read and [retries] further reads. *)
Lemma apReadPollFrom_never (retries : nat) :
  forall (last : option Z) (s : Probe H),
    Forall (fun r => exists v, r = Some v /\ pollMatch mask expected v = false)
           (answers T addr (S retries) (hw s)) ->
    let out := apReadPollFrom T addr mask expected retries last s in
    fst (result out) = false
    /\ readsOf addr (events out) = answers T addr (S retries) (hw s).
Proof.
  assert (R : APReg_eqb addr addr = true) by (destruct addr; reflexivity).
  induction retries as [|n IH]; intros last s A;
    cbn [answers] in A; cbn [answers apReadPollFrom];
    unfold bind, apRead, ret;
    destruct (hw_apRead T addr (hw s)) as [r h];
    inversion A as [|? ? (v & -> & Em) A']; subst; rewrite Em.
  - simpl. rewrite R. auto.
  - specialize (IH (Some v) (mkProbe h (logLevel s)) A').
    destruct (apReadPollFrom T addr mask expected n (Some v)
                (mkProbe h (logLevel s))) as [[[ok1 v1] s1] e1].
    unfold result, events in *. simpl in *. rewrite R.
    destruct IH as [-> ->]. auto.
Qed.

Section Logs.

Variables (lvl : LogLevel) (ok : bool) (l : list Entry).
Hypothesis L : PollLog lvl addr mask expected ok l.

Lemma pollLog_apWrites : apWrites l = [].
Proof. induction L; simpl; auto. Qed.

Lemma pollLog_writesTo (a : APReg) : writesTo a l = [].
Proof. induction L; simpl; auto. Qed.

Lemma pollLog_errors : errors l = [].
Proof. induction L; simpl; auto. Qed.

Lemma pollLog_cleanups : cleanups l = O.
Proof. induction L; simpl; auto. Qed.

Lemma pollLog_readsOf_other (a : APReg) :
  APReg_eqb addr a = false -> readsOf a l = [].
Proof. intros E. induction L; simpl; rewrite E; auto. Qed.

Lemma pollLog_stamps : Forall (fun x => fst x = lvl) l.
Proof. induction L; repeat constructor; auto. Qed.

Lemma pollLog_reads :
  Forall (fun x => exists r, snd x = EvApRead addr r) l.
Proof. induction L; repeat constructor; simpl; eauto. Qed.

Lemma pollLog_failStops (P : Event -> bool) : failStops P l = true.
Proof. induction L; simpl; auto. destruct (P _); auto. Qed.

Lemma pollLog_clean (P : Event -> bool) :
  ok = true -> anyFailed P l = false.
Proof. induction L; simpl; auto; discriminate. Qed.

Lemma pollLog_hit :
  ok = true ->
  exists pre v,
    l = pre ++ [(lvl, EvApRead addr (Some v))]
    /\ pollMatch mask expected v = true.
Proof.
  induction L; try discriminate; intros E.
  - exists [], v. auto.
  - destruct (IHp p E) as (pre & u & -> & Hu).
    exists ((lvl, EvApRead addr (Some v)) :: pre), u. auto.
Qed.

End Logs.

End PollFacts.

(** ** Running the operations *)

Ltac unfold_ops :=
  unfold bind, ret, log, apRead, apWrite, memStore, memLoad, initMemPort,
    setLogLevel, setLogLevelSave.

Ltac reduce_run :=
  cbv beta iota zeta; cbn [fst snd negb hw logLevel app].

(** Names the outcome of the next poll and brings in the shape of its log. *)
Ltac run_poll :=
  match goal with
  | |- context [apReadPoll ?T ?a ?m ?e ?r ?s] =>
      let ok := fresh "ok" in
      let v := fresh "v" in
      let s' := fresh "s" in
      let e' := fresh "e" in
      let E := fresh "E" in
      let L := fresh "L" in
      let Lv := fresh "Lv" in
      let Len := fresh "Len" in
      destruct (apReadPoll T a m e r s) as [[[ok v] s'] e'] eqn:E;
      pose proof (apReadPoll_log T a m e r s ok v s' e' E) as (L & Lv & Len);
      cbn [hw logLevel] in Lv
  end.

Lemma u32_all_ones (m : Z) : 0 <= m < 2 ^ 32 -> Z.land (u32 (-1)) m = m.
Proof.
  intros R. change (u32 (-1)) with (Z.ones 32).
  rewrite Z.land_comm, Z.land_ones by lia. apply Z.mod_small. exact R.
Qed.

(** ** Chip identification *)

(** C5.  [detect] reads the identity register once.  Whatever value [idr]
    the read returns, [detect] succeeds exactly when [idr] is 0x001C0000;
    for any other value it fails, logs the unsupported-peripheral error and
    its whole activity is that single read followed by the diagnostic: no
    write, no second read. *)
Theorem detect_signature :
  forall (H : Type) (T : Transport H) (s : Probe H) (idr : Z) (h : H),
    hw_apRead T REG_MDM_IDR (hw s) = (Some idr, h) ->
    let out := detect T s in
    (result out = true <-> idr = 0x001C0000)
    /\ (idr <> 0x001C0000 ->
        result out = false
        /\ bare (events out) =
             [EvApRead REG_MDM_IDR (Some idr);
              EvLog LOG_ERROR unsupportedPeripheral []])
    /\ readsOf REG_MDM_IDR (events out) = [Some idr]
    /\ apWrites (events out) = []
    /\ hw (final out) = h.
Proof.
  intros H T s idr h E out. subst out.
  unfold detect. unfold_ops. rewrite E. reduce_run.
  destruct (Z.eqb_spec idr 0x001C0000) as [->|N]; reduce_run;
    unfold result, events, final; simpl.
  - repeat split; auto; intros; congruence.
  - repeat split; auto; intros; congruence.
Qed.

Lemma detect_signature_witness :
  let out := detect Sim.scripted (Sim.probe [Some 0x001C0001]) in
  result out = false
  /\ bare (events out) =
       [EvApRead REG_MDM_IDR (Some 0x001C0001);
        EvLog LOG_ERROR unsupportedPeripheral []].
Proof.
  apply (detect_signature Sim.Script Sim.scripted
           (Sim.probe [Some 0x001C0001]) 0x001C0001 [] eq_refl).
  discriminate.
Defined.

(** ** Mass erase *)

Section MassErase.

Context {K : KinetisRegs} {H : Type} (T : Transport H).

Lemma flagSet_clear (status flag : Z) :
  Z.land status flag = 0 -> flagSet status flag = false.
Proof. intros E. unfold flagSet. rewrite E. reflexivity. Qed.

Lemma flagSet_set (status flag : Z) :
  Z.land status flag <> 0 -> flagSet status flag = true.
Proof.
  intros E. unfold flagSet. apply negb_true_iff. now apply Z.eqb_neq.
Qed.

Lemma lor_carries_left (a b : Z) : Z.land (Z.lor a b) a = a.
Proof.
  apply Z.bits_inj'. intros n _.
  rewrite Z.land_spec, Z.lor_spec. destruct (Z.testbit a n); simpl; auto.
  apply andb_false_r.
Qed.

Lemma lor_carries_right (a b : Z) : Z.land (Z.lor a b) b = b.
Proof. rewrite Z.lor_comm. apply lor_carries_left. Qed.

(** The part of [flashMassErase] that follows the write of Control: it
    issues no further write. *)
Lemma flashMassErase_proceed (s : Probe H) (status : Z) (h : H) :
  hw_apRead T REG_MDM_STATUS (hw s) = (Some status, h) ->
  Z.land status REG_MDM_STATUS_FLASH_READY <> 0 ->
  Z.land status REG_MDM_STATUS_FLASH_ERASE_ACK = 0 ->
  Z.land status REG_MDM_STATUS_MASS_ERASE_ENABLE <> 0 ->
  apWrites (events (flashMassErase T s)) =
    [(REG_MDM_CONTROL,
      Z.lor REG_MDM_CONTROL_CORE_HOLD_RESET REG_MDM_CONTROL_MASS_ERASE)].
Proof.
  intros E R A En. unfold flashMassErase. unfold_ops. rewrite E.
  reduce_run.
  rewrite (flagSet_set _ _ R), (flagSet_clear _ _ A), (flagSet_set _ _ En).
  reduce_run.
  destruct (hw_apWrite T REG_MDM_CONTROL _ h) as [[|] h2]; reduce_run;
    [|reflexivity].
  run_poll. reduce_run. destruct ok; reduce_run.
  2: unfold events; cbn [snd apWrites];
     now rewrite ?apWrites_app, (pollLog_apWrites _ _ _ _ _ _ L).
  run_poll. reduce_run.
  assert (W : forall tl, apWrites tl = [] ->
              apWrites (e ++ e0 ++ tl) = []).
  { intros tl Htl.
    now rewrite !apWrites_app, (pollLog_apWrites _ _ _ _ _ _ L),
      (pollLog_apWrites _ _ _ _ _ _ L0), Htl. }
  destruct ok; reduce_run.
  2: unfold events; cbn [snd apWrites]; now rewrite W.
  destruct (hw_apRead T REG_MDM_STATUS (hw s1)) as [[st|] h3]; reduce_run.
  2: unfold events; cbn [snd apWrites]; now rewrite W.
  destruct (flagSet st REG_MDM_STATUS_FLASH_READY); reduce_run;
    unfold events; cbn [snd apWrites]; now rewrite W.
Qed.

End MassErase.

(** C1.  Whatever Status value [flashMassErase] reads at entry: with
    flash-ready clear it fails without any register write; with flash-ready
    set and erase-acknowledge set it fails, diagnosed as already in
    progress, without any write; with flash-ready set, erase-acknowledge
    clear and mass-erase-enable clear it fails, diagnosed as disabled,
    without any write; and when the three checks pass, the writes of the
    whole call are one single write, to Control, of a value that carries
    the hold-reset and the mass-erase bits together. *)
Theorem flashMassErase_preconditions :
  forall (K : KinetisRegs) (H : Type) (T : Transport H) (s : Probe H)
         (status : Z) (h : H),
    hw_apRead T REG_MDM_STATUS (hw s) = (Some status, h) ->
    let out := flashMassErase T s in
    let ready := Z.land status REG_MDM_STATUS_FLASH_READY in
    let acked := Z.land status REG_MDM_STATUS_FLASH_ERASE_ACK in
    let enabled := Z.land status REG_MDM_STATUS_MASS_ERASE_ENABLE in
    let request :=
      Z.lor REG_MDM_CONTROL_CORE_HOLD_RESET REG_MDM_CONTROL_MASS_ERASE in
    (ready = 0 ->
       result out = false /\ apWrites (events out) = []
       /\ errors (events out) = [notReadyBefore])
    /\ (ready <> 0 -> acked <> 0 ->
       result out = false /\ apWrites (events out) = []
       /\ errors (events out) = [alreadyInProgress])
    /\ (ready <> 0 -> acked = 0 -> enabled = 0 ->
       result out = false /\ apWrites (events out) = []
       /\ errors (events out) = [eraseDisabled])
    /\ (ready <> 0 -> acked = 0 -> enabled <> 0 ->
       apWrites (events out) = [(REG_MDM_CONTROL, request)]
       /\ writesTo REG_MDM_CONTROL (events out) = [request]
       /\ Z.land request REG_MDM_CONTROL_CORE_HOLD_RESET =
            REG_MDM_CONTROL_CORE_HOLD_RESET
       /\ Z.land request REG_MDM_CONTROL_MASS_ERASE =
            REG_MDM_CONTROL_MASS_ERASE).
Proof.
  intros K H T s status h E out ready acked enabled request.
  subst out ready acked enabled request.
  repeat split.
  1-9: unfold flashMassErase; unfold_ops; rewrite E; reduce_run.
  1-3: rewrite (flagSet_clear _ _ H0); reflexivity.
  1-3: rewrite (flagSet_set _ _ H0), (flagSet_set _ _ H1); reflexivity.
  1-3: rewrite (flagSet_set _ _ H0), (flagSet_clear _ _ H1),
         (flagSet_clear _ _ H2); reflexivity.
  - now apply flashMassErase_proceed with (status := status) (h := h).
  - rewrite writesTo_apWrites,
      (flashMassErase_proceed T s status h E H0 H1 H2).
    reflexivity.
  - apply lor_carries_left.
  - apply lor_carries_right.
Qed.

Lemma flashMassErase_preconditions_witness :
  let out :=
    @flashMassErase Sim.k20 _ Sim.scripted
      (Sim.probe [Some 0x22; Sim.ack; Some 0x23; Some 0x00; Some 0x22]) in
  writesTo REG_MDM_CONTROL (events out) = [0x11]
  /\ result out = true.
Proof.
  split; [|reflexivity].
  apply (flashMassErase_preconditions Sim.k20 Sim.Script Sim.scripted
           (Sim.probe [Some 0x22; Sim.ack; Some 0x23; Some 0x00; Some 0x22])
           0x22 [Sim.ack; Some 0x23; Some 0x00; Some 0x22] eq_refl);
    simpl; congruence.
Defined.

Section EraseFailures.

Context {K : KinetisRegs} {H : Type} (T : Transport H).

(** A poll whose target never shows the awaited value fails. *)
Lemma apReadPoll_never (addr : APReg) (mask expected : Z) (retries : nat)
    (s : Probe H) (P : option Z -> Prop) :
  (forall r, P r -> exists v, r = Some v /\ pollMatch mask expected v = false) ->
  Forall P (answers T addr (S retries) (hw s)) ->
  fst (result (apReadPoll T addr mask expected retries s)) = false.
Proof.
  intros I A. apply apReadPollFrom_never.
  revert A. apply Forall_impl. exact I.
Qed.

Variables (s : Probe H) (status : Z) (h1 h2 : H).

Hypothesis Estatus : hw_apRead T REG_MDM_STATUS (hw s) = (Some status, h1).
Hypothesis Hready : Z.land status REG_MDM_STATUS_FLASH_READY <> 0.
Hypothesis Hnoack : Z.land status REG_MDM_STATUS_FLASH_ERASE_ACK = 0.
Hypothesis Henabled : Z.land status REG_MDM_STATUS_MASS_ERASE_ENABLE <> 0.
Hypothesis Ewrite :
  hw_apWrite T REG_MDM_CONTROL
    (Z.lor REG_MDM_CONTROL_CORE_HOLD_RESET REG_MDM_CONTROL_MASS_ERASE) h1 =
  (true, h2).

Local Notation "'begun'" :=
  (apReadPoll T REG_MDM_STATUS REG_MDM_STATUS_FLASH_ERASE_ACK (u32 (-1))
     DEFAULT_RETRIES (mkProbe h2 (logLevel s))).

Local Notation "'completed'" :=
  (apReadPoll T REG_MDM_CONTROL REG_MDM_CONTROL_MASS_ERASE 0 10000
     (final begun)).

Ltac enter :=
  unfold flashMassErase; unfold_ops; rewrite Estatus; reduce_run;
  rewrite (flagSet_set _ _ Hready), (flagSet_clear _ _ Hnoack),
    (flagSet_set _ _ Henabled); reduce_run;
  rewrite Ewrite; reduce_run.

Lemma erase_not_begun :
  fst (result begun) = false ->
  let out := flashMassErase T s in
  result out = false
  /\ errors (events out) = [notBegun]
  /\ readsOf REG_MDM_CONTROL (events out) = [].
Proof.
  intros B. enter. run_poll.
  unfold result in B. cbn [fst] in B. subst ok. reduce_run.
  unfold result, events. cbn [fst snd errors readsOf APReg_eqb].
  rewrite errors_app, readsOf_app, (pollLog_errors _ _ _ _ _ _ L),
    (pollLog_readsOf_other _ _ _ _ _ _ L) by reflexivity.
  auto.
Qed.

Lemma erase_not_completed :
  fst (result begun) = true ->
  fst (result completed) = false ->
  let out := flashMassErase T s in
  result out = false /\ errors (events out) = [notCompleted].
Proof.
  intros B C. enter. run_poll.
  unfold result, final in B, C. cbn [fst snd] in B, C. subst ok.
  reduce_run. run_poll. cbn [fst] in C. subst ok. reduce_run.
  unfold result, events. cbn [fst snd errors].
  rewrite !errors_app, (pollLog_errors _ _ _ _ _ _ L),
    (pollLog_errors _ _ _ _ _ _ L0).
  auto.
Qed.

Lemma erase_not_ready_after (st : Z) (h3 : H) :
  fst (result begun) = true ->
  fst (result completed) = true ->
  hw_apRead T REG_MDM_STATUS (hw (final completed)) = (Some st, h3) ->
  Z.land st REG_MDM_STATUS_FLASH_READY = 0 ->
  let out := flashMassErase T s in
  result out = false /\ errors (events out) = [notReadyAfter].
Proof.
  intros B C E R. enter. run_poll.
  unfold result, final in B, C, E. cbn [fst snd] in B, C, E. subst ok.
  reduce_run. run_poll. cbn [fst snd] in C, E. subst ok. reduce_run.
  rewrite E. reduce_run. rewrite (flagSet_clear _ _ R). reduce_run.
  unfold result, events. cbn [fst snd errors].
  rewrite !errors_app, (pollLog_errors _ _ _ _ _ _ L),
    (pollLog_errors _ _ _ _ _ _ L0).
  auto.
Qed.

End EraseFailures.

(** C4.  Once the preconditions hold and the erase request is written:
    if the erase-acknowledge bit never sets within the budget of the
    erase-begin poll (more generally, whenever that poll fails),
    [flashMassErase] fails with the failed-to-begin diagnostic and never
    reads Control, so the completion poll is not attempted; if the begin
    poll succeeds and the completion poll, with its ceiling of 10000
    retries, fails (in particular when the mass-erase bit never clears),
    it fails with the failed-to-complete diagnostic; if both polls succeed
    and the final Status read shows flash-ready clear, it fails with the
    not-ready-after diagnostic.  The three diagnostics are pairwise
    different and each is the only error logged by its call. *)
Theorem flashMassErase_failures :
  forall (K : KinetisRegs) (H : Type) (T : Transport H) (s : Probe H)
         (status : Z) (h1 h2 : H),
    hw_apRead T REG_MDM_STATUS (hw s) = (Some status, h1) ->
    Z.land status REG_MDM_STATUS_FLASH_READY <> 0 ->
    Z.land status REG_MDM_STATUS_FLASH_ERASE_ACK = 0 ->
    Z.land status REG_MDM_STATUS_MASS_ERASE_ENABLE <> 0 ->
    hw_apWrite T REG_MDM_CONTROL
      (Z.lor REG_MDM_CONTROL_CORE_HOLD_RESET REG_MDM_CONTROL_MASS_ERASE) h1 =
    (true, h2) ->
    let out := flashMassErase T s in
    let begun :=
      apReadPoll T REG_MDM_STATUS REG_MDM_STATUS_FLASH_ERASE_ACK (u32 (-1))
        DEFAULT_RETRIES (mkProbe h2 (logLevel s)) in
    let completed :=
      apReadPoll T REG_MDM_CONTROL REG_MDM_CONTROL_MASS_ERASE 0 10000
        (final begun) in
    (0 < REG_MDM_STATUS_FLASH_ERASE_ACK < 2 ^ 32 ->
     Forall (fun r => exists v,
               r = Some v /\ Z.land v REG_MDM_STATUS_FLASH_ERASE_ACK = 0)
            (answers T REG_MDM_STATUS (S DEFAULT_RETRIES) h2) ->
     result out = false
     /\ errors (events out) = [notBegun]
     /\ readsOf REG_MDM_CONTROL (events out) = [])
    /\ (fst (result begun) = false ->
        result out = false
        /\ errors (events out) = [notBegun]
        /\ readsOf REG_MDM_CONTROL (events out) = [])
    /\ (fst (result begun) = true ->
        Forall (fun r => exists v,
                  r = Some v /\ Z.land v REG_MDM_CONTROL_MASS_ERASE <> 0)
               (answers T REG_MDM_CONTROL (S 10000) (hw (final begun))) ->
        result out = false /\ errors (events out) = [notCompleted])
    /\ (fst (result begun) = true ->
        fst (result completed) = false ->
        result out = false /\ errors (events out) = [notCompleted])
    /\ (fst (result begun) = true ->
        fst (result completed) = true ->
        forall (st : Z) (h3 : H),
          hw_apRead T REG_MDM_STATUS (hw (final completed)) = (Some st, h3) ->
          Z.land st REG_MDM_STATUS_FLASH_READY = 0 ->
          result out = false /\ errors (events out) = [notReadyAfter])
    /\ notBegun <> notCompleted
    /\ notCompleted <> notReadyAfter
    /\ notBegun <> notReadyAfter.
Proof.
  intros K H T s status h1 h2 E R A En W out begun completed.
  subst out begun completed.
  split; [|split; [|split; [|split; [|split]]]].
  - intros Rg N.
    apply (erase_not_begun T s status h1 h2 E R A En W).
    apply apReadPoll_never with (2 := N).
    intros r (v & -> & Z0). exists v. split; [reflexivity|].
    unfold pollMatch. rewrite Z0, (u32_all_ones _ (conj (Z.lt_le_incl _ _ (proj1 Rg)) (proj2 Rg))).
    apply Z.eqb_neq. lia.
  - apply (erase_not_begun T s status h1 h2 E R A En W).
  - intros B N.
    apply (erase_not_completed T s status h1 h2 E R A En W B).
    apply apReadPoll_never with (2 := N).
    intros r (v & -> & Z0). exists v. split; [reflexivity|].
    unfold pollMatch. rewrite Z.land_0_l. now apply Z.eqb_neq.
  - apply (erase_not_completed T s status h1 h2 E R A En W).
  - intros B C st h3. 
    apply (erase_not_ready_after T s status h1 h2 E R A En W st h3 B C).
  - repeat split; discriminate.
Qed.

Lemma flashMassErase_failures_witness :
  let out :=
    @flashMassErase Sim.k20 _ Sim.scripted
      (Sim.probe ([Some 0x22; Sim.ack] ++ repeat (Some 0x22) 51)) in
  result out = false
  /\ errors (events out) = [notBegun]
  /\ readsOf REG_MDM_CONTROL (events out) = [].
Proof.
  refine (proj1 (flashMassErase_failures Sim.k20 Sim.Script Sim.scripted
           (Sim.probe ([Some 0x22; Sim.ack] ++ repeat (Some 0x22) 51))
           0x22 (Sim.ack :: repeat (Some 0x22) 51) (repeat (Some 0x22) 51)
           eq_refl _ _ _ eq_refl) _ _).
  - discriminate.
  - reflexivity.
  - discriminate.
  - simpl. lia.
  - simpl. repeat (constructor; [exists 0x22; split; reflexivity|]).
    constructor.
Defined.

(** ** Reset and halt: the phases *)

Ltac run_write :=
  match goal with
  | |- context [hw_apWrite ?T ?a ?v ?h] =>
      let E := fresh "Ew" in
      destruct (hw_apWrite T a v h) as [[|] ?] eqn:E
  end.

Ltac tidy :=
  repeat rewrite app_nil_r; repeat rewrite <- app_assoc; cbn [app];
  try reflexivity.

Section ResetHaltPhases.

Context {K : KinetisRegs} {H : Type} (T : Transport H).

(** [resetHalt] is the short-circuit sequence of its five phases. *)
Lemma resetHalt_phases (s : Probe H) :
  resetHalt T s =
  andThen (phase1 T)
    (andThen (phase2 T) (andThen (phase3 T) (andThen (phase4 T) (phase5 T))))
    s.
Proof.
  unfold resetHalt, andThen, phase1, phase2, phase3, phase4, phase5,
    safeMask, safeExpected, haltFailure.
  unfold_ops. reduce_run.
  run_write; reduce_run; [|reflexivity].
  run_poll; destruct ok; reduce_run; [|tidy].
  run_write; reduce_run; [|tidy].
  run_poll; destruct ok; reduce_run; [|tidy].
  run_write; reduce_run; [|tidy].
  run_poll; destruct ok; reduce_run; [|tidy].
  run_write; reduce_run; [|tidy].
  run_write; reduce_run; [|tidy].
  destruct (haltLoop T 200 None _) as [[[n d] sl] el].
  destruct (hw_initMemPort T (hw sl)) as [okc hl]. reduce_run.
  destruct (n =? 0)%nat; reduce_run; tidy.
Qed.

End ResetHaltPhases.

Lemma result_mk {H A : Type} (a : A) (s : Probe H) (e : list Entry) :
  result (a, s, e) = a.
Proof. reflexivity. Qed.

Lemma final_mk {H A : Type} (a : A) (s : Probe H) (e : list Entry) :
  final (a, s, e) = s.
Proof. reflexivity. Qed.

Lemma events_mk {H A : Type} (a : A) (s : Probe H) (e : list Entry) :
  events (a, s, e) = e.
Proof. reflexivity. Qed.

Section AndThen.

Context {H : Type} (p q : M H bool) (s : Probe H).

Lemma andThen_false :
  result (p s) = false ->
  andThen p q s = (false, final (p s), events (p s)).
Proof.
  unfold andThen, bind, ret, result, final, events.
  destruct (p s) as [[r s1] e1]. simpl. intros ->. simpl.
  now rewrite app_nil_r.
Qed.

Lemma andThen_true :
  result (p s) = true ->
  andThen p q s =
    (result (q (final (p s))), final (q (final (p s))),
     events (p s) ++ events (q (final (p s)))).
Proof.
  unfold andThen, bind, ret, result, final, events.
  destruct (p s) as [[r s1] e1]. simpl. intros ->. simpl.
  now destruct (q s1) as [[r2 s2] e2].
Qed.

Lemma andThen_true_run (r : bool) (s' : Probe H) (e' : list Entry) :
  result (p s) = true ->
  q (final (p s)) = (r, s', e') ->
  andThen p q s = (r, s', events (p s) ++ e').
Proof.
  intros Hp Hq. rewrite (andThen_true Hp), Hq. reflexivity.
Qed.

End AndThen.

(** Moves past a phase that succeeded. *)
Ltac next_phase :=
  apply andThen_true_run; [assumption|].

Section PhasesRun.

Context {K : KinetisRegs} {H : Type} (T : Transport H).

(** Every phase that runs issues at least one access. *)
Lemma phases_nonempty (s' : Probe H) :
  events (phase1 T s') <> [] /\ events (phase2 T s') <> []
  /\ events (phase3 T s') <> [] /\ events (phase4 T s') <> []
  /\ events (phase5 T s') <> [].
Proof.
  assert (P : forall (a : Entry) (l : list Entry), a :: l <> [])
    by discriminate.
  unfold events. repeat split.
  - unfold phase1. unfold_ops. reduce_run.
    destruct (hw_apWrite T _ _ _) as [[|] ?]; reduce_run; [|apply P].
    destruct (apReadPoll T _ _ _ _ _) as [[[? ?] ?] ?]; apply P.
  - unfold phase2. unfold_ops. reduce_run.
    destruct (hw_apWrite T _ _ _) as [[|] ?]; reduce_run; [|apply P].
    destruct (apReadPoll T _ _ _ _ _) as [[[[|] ?] ?] ?]; reduce_run;
      [|apply P].
    destruct (hw_apWrite T _ _ _) as [? ?]; reduce_run; apply P.
  - unfold phase3. unfold_ops. run_poll. reduce_run.
    rewrite app_nil_r. destruct L; apply P.
  - unfold phase4. unfold_ops. reduce_run.
    destruct (hw_apWrite T _ _ _) as [[|] ?]; reduce_run; [|apply P].
    destruct (hw_apWrite T _ _ _) as [? ?]; reduce_run; apply P.
  - unfold phase5. unfold_ops. reduce_run.
    destruct (haltLoop T 200 None _) as [[[n d] sl] el].
    destruct (hw_initMemPort T (hw sl)) as [okc hl]. reduce_run.
    destruct (n =? 0)%nat; reduce_run; intros E;
      apply app_eq_nil in E as [_ E]; discriminate.
Qed.

End PhasesRun.


(** ** Discipline of the phases before the halt race *)

Section Discipline.

Context {H : Type} (T : Transport H).

Lemma anyFailed_failStops (P : Event -> bool) (l : list Entry) :
  anyFailed P l = false -> failStops P l = true.
Proof.
  unfold anyFailed. induction l as [|[lv e] l IH]; simpl; auto.
  intros E. apply orb_false_iff in E as [E1 E2]. rewrite E1. auto.
Qed.

Lemma Disciplined_ext (Q : Event -> bool) (m m' : M H bool) :
  (forall s, m s = m' s) -> Disciplined Q m -> Disciplined Q m'.
Proof. intros E D s. rewrite <- E. apply D. Qed.

Lemma Disciplined_weaken (Q Q' : Event -> bool) (m : M H bool) :
  (forall e, Q e = true -> Q' e = true) ->
  Disciplined Q m -> Disciplined Q' m.
Proof.
  intros I D s. destruct (D s) as (Lv & F & S1 & S2).
  repeat split; auto.
  revert F. apply Forall_impl. intros x [E1 E2]. auto.
Qed.

Lemma andThen_disciplined (Q : Event -> bool) (p q : M H bool) :
  Disciplined Q p -> Disciplined Q q -> Disciplined Q (andThen p q).
Proof.
  intros Dp Dq s. destruct (Dp s) as (Lv & F & S1 & S2).
  destruct (result (p s)) eqn:R.
  - destruct (Dq (final (p s))) as (Lv' & F' & S1' & S2').
    rewrite (andThen_true p q s R). unfold result, final, events in *.
    cbn [fst snd]. rewrite Lv in *. repeat split; auto.
    + apply Forall_app. auto.
    + intros P. rewrite failStops_app_clean; auto.
    + intros P E. rewrite anyFailed_app, S2, S2'; auto.
  - rewrite (andThen_false p q s R). unfold result, final, events in *.
    cbn [fst snd]. repeat split; auto; discriminate.
Qed.

Lemma apWrite_disciplined (Q : Event -> bool) (a : APReg) (v : Z) :
  (forall ok, Q (EvApWrite a v ok) = true) ->
  Disciplined Q (apWrite T a v).
Proof.
  intros HQ s. unfold apWrite, result, final, events.
  destruct (hw_apWrite T a v (hw s)) as [ok h]. cbn [fst snd logLevel].
  split; [reflexivity|split; [|split]].
  - repeat constructor. apply HQ.
  - intros P. simpl. destruct (_ && _); reflexivity.
  - intros P ->. reflexivity.
Qed.

Lemma polled_disciplined (Q : Event -> bool) (a : APReg)
    (mask expected : Z) (retries : nat) :
  (forall r, Q (EvApRead a r) = true) ->
  Disciplined Q (polled (apReadPoll T a mask expected retries)).
Proof.
  intros HQ s. unfold polled, bind, ret, result, final, events.
  destruct (apReadPoll T a mask expected retries s) as [[[ok v] s'] e] eqn:E.
  apply apReadPoll_log in E as (L & Lv & _).
  cbn [fst snd]. rewrite app_nil_r. split; [exact Lv|split; [|split]].
  - pose proof (pollLog_stamps _ _ _ _ _ _ L) as St.
    pose proof (pollLog_reads _ _ _ _ _ _ L) as Rd.
    apply Forall_forall. intros x Hx.
    rewrite Forall_forall in St, Rd.
    split; [now apply St|]. destruct (Rd x Hx) as [r ->]. apply HQ.
  - intros P. apply (pollLog_failStops _ _ _ _ _ _ L).
  - intros P. apply (pollLog_clean _ _ _ _ _ _ L).
Qed.

End Discipline.

Section PhaseDiscipline.

Context {K : KinetisRegs} {H : Type} (T : Transport H).

Lemma phase1_disciplined : Disciplined resetEvent (phase1 T).
Proof.
  apply Disciplined_ext with
    (m := andThen
            (apWrite T REG_MDM_CONTROL REG_MDM_CONTROL_CORE_HOLD_RESET)
            (polled (apReadPoll T REG_MDM_STATUS REG_MDM_STATUS_SYS_NRESET
                       (u32 (-1)) resetRetries))).
  - reflexivity.
  - apply andThen_disciplined.
    + now apply apWrite_disciplined.
    + now apply polled_disciplined.
Qed.

Lemma phase2_disciplined : Disciplined resetEvent (phase2 T).
Proof.
  apply Disciplined_ext with
    (m := andThen
            (apWrite T REG_MDM_CONTROL REG_MDM_CONTROL_SYS_RESET_REQ)
            (andThen
               (polled (apReadPoll T REG_MDM_STATUS
                          REG_MDM_STATUS_SYS_NRESET 0 DEFAULT_RETRIES))
               (apWrite T REG_MDM_CONTROL 0))).
  - intros s. unfold phase2, andThen, polled. unfold_ops. reduce_run.
    run_write; reduce_run; [|reflexivity].
    run_poll. reduce_run. destruct ok; reduce_run; [|tidy].
    run_write; reduce_run; tidy.
  - apply andThen_disciplined; [now apply apWrite_disciplined|].
    apply andThen_disciplined.
    + now apply polled_disciplined.
    + now apply apWrite_disciplined.
Qed.

Lemma phase3_disciplined : Disciplined resetEvent (phase3 T).
Proof. unfold phase3. now apply polled_disciplined. Qed.

Lemma phase4_disciplined : Disciplined preHaltEvent (phase4 T).
Proof.
  unfold phase4.
  apply (andThen_disciplined preHaltEvent (apWrite T MEM_CSW _)
           (apWrite T MEM_TAR _)); now apply apWrite_disciplined.
Qed.

Lemma resetEvent_preHalt (e : Event) :
  resetEvent e = true -> preHaltEvent e = true.
Proof. destruct e as [[]|[]| | | |]; simpl; auto. Qed.

Lemma preHalt_disciplined : Disciplined preHaltEvent (preHalt T).
Proof.
  pose proof (Disciplined_weaken _ _ _ resetEvent_preHalt
                phase1_disciplined) as D1.
  pose proof (Disciplined_weaken _ _ _ resetEvent_preHalt
                phase2_disciplined) as D2.
  pose proof (Disciplined_weaken _ _ _ resetEvent_preHalt
                phase3_disciplined) as D3.
  exact (andThen_disciplined _ _ _ D1
           (andThen_disciplined _ _ _ D2
              (andThen_disciplined _ _ _ D3 phase4_disciplined))).
Qed.

Lemma andThen_assoc (p q r : M H bool) (s : Probe H) :
  andThen (andThen p q) r s = andThen p (andThen q r) s.
Proof.
  unfold andThen, bind, ret.
  destruct (p s) as [[[|] s1] e1]; reduce_run.
  - destruct (q s1) as [[[|] s2] e2]; reduce_run.
    + destruct (r s2) as [[r3 s3] e3]. tidy.
    + tidy.
  - tidy.
Qed.

Lemma andThen_ext (p q q' : M H bool) (s : Probe H) :
  (forall s', q s' = q' s') -> andThen p q s = andThen p q' s.
Proof.
  intros E. unfold andThen, bind, ret.
  destruct (p s) as [[[|] s1] e1]; reduce_run; [rewrite E|]; reflexivity.
Qed.

(** [resetHalt] is the phases before the halt race followed by the race. *)
Lemma resetHalt_preHalt (s : Probe H) :
  resetHalt T s = andThen (preHalt T) (phase5 T) s.
Proof.
  rewrite resetHalt_phases. unfold preHalt.
  rewrite andThen_assoc. apply andThen_ext. intros s1.
  rewrite andThen_assoc. apply andThen_ext. intros s2.
  rewrite andThen_assoc. reflexivity.
Qed.

End PhaseDiscipline.

(** C7.  The phases of [resetHalt] run strictly in order 1 to 5, each from
    the state its predecessor left.  Whenever phase N (N = 1..4) fails,
    [resetHalt] returns failure and its whole activity is that of phases
    1..N: nothing of phase N+1 is performed.  When phases 1 to 4 succeed
    the activity is that of the five phases in sequence.  Every phase that
    runs issues at least one access of its own, and each of phases 1 to 4
    fails as soon as one of its register accesses fails. *)
Theorem resetHalt_phase_order :
  forall (K : KinetisRegs) (H : Type) (T : Transport H) (s : Probe H),
    let o1 := phase1 T s in
    let o2 := phase2 T (final o1) in
    let o3 := phase3 T (final o2) in
    let o4 := phase4 T (final o3) in
    let o5 := phase5 T (final o4) in
    (result o1 = false ->
       resetHalt T s = (false, final o1, events o1))
    /\ (result o1 = true -> result o2 = false ->
       resetHalt T s = (false, final o2, events o1 ++ events o2))
    /\ (result o1 = true -> result o2 = true -> result o3 = false ->
       resetHalt T s =
         (false, final o3, events o1 ++ events o2 ++ events o3))
    /\ (result o1 = true -> result o2 = true -> result o3 = true ->
        result o4 = false ->
       resetHalt T s =
         (false, final o4,
          events o1 ++ events o2 ++ events o3 ++ events o4))
    /\ (result o1 = true -> result o2 = true -> result o3 = true ->
        result o4 = true ->
       resetHalt T s =
         (result o5, final o5,
          events o1 ++ events o2 ++ events o3 ++ events o4 ++ events o5))
    /\ (forall s' : Probe H,
          events (phase1 T s') <> [] /\ events (phase2 T s') <> []
          /\ events (phase3 T s') <> [] /\ events (phase4 T s') <> []
          /\ events (phase5 T s') <> [])
    /\ (forall s' : Probe H,
          (anyFailed anyAccess (events (phase1 T s')) = true ->
           result (phase1 T s') = false)
          /\ (anyFailed anyAccess (events (phase2 T s')) = true ->
              result (phase2 T s') = false)
          /\ (anyFailed anyAccess (events (phase3 T s')) = true ->
              result (phase3 T s') = false)
          /\ (anyFailed anyAccess (events (phase4 T s')) = true ->
              result (phase4 T s') = false)).
Proof.
  intros K H T s o1 o2 o3 o4 o5. subst o1 o2 o3 o4 o5.
  assert (Fails : forall (Q : Event -> bool) (m : M H bool),
             Disciplined Q m ->
             forall s', anyFailed anyAccess (events (m s')) = true ->
                        result (m s') = false).
  { intros Q m D s' A. destruct (D s') as (_ & _ & _ & C).
    destruct (result (m s')); [|reflexivity].
    rewrite (C anyAccess eq_refl) in A. discriminate. }
  repeat match goal with |- _ /\ _ => split end.
  6: exact (phases_nonempty T).
  6: { intros s'.
       exact (conj (Fails _ _ (phase1_disciplined T) s')
                (conj (Fails _ _ (phase2_disciplined T) s')
                   (conj (Fails _ _ (phase3_disciplined T) s')
                      (Fails _ _ (phase4_disciplined T) s')))). }
  all: intros; rewrite resetHalt_phases.
  - now apply andThen_false.
  - next_phase. now apply andThen_false.
  - do 2 next_phase. now apply andThen_false.
  - do 3 next_phase. now apply andThen_false.
  - do 3 next_phase. now apply andThen_true.
Qed.

(** ** The race for halt *)

Section HaltRace.

Context {K : KinetisRegs} {H : Type} (T : Transport H).

Lemma haltLoop_log (n : nat) :
  forall (d : option Z) (s : Probe H),
    let out := haltLoop T n d s in
    logLevel (final out) = logLevel s
    /\ Forall (fun x => fst x = logLevel s /\ onHaltRace (snd x) = true)
              (events out)
    /\ snd (result out) = lastReadback d (events out)
    /\ (fst (result out) <> O ->
        exists v, snd (result out) = Some v /\ halted v = true).
Proof.
  induction n as [|n IH]; intros d s; cbn [haltLoop].
  - unfold ret, result, final, events. cbn [fst snd lastReadback].
    repeat split; auto. congruence.
  - unfold_ops.
    destruct (hw_apWrite T MEM_DRW 0xA05F0003 (hw s)) as [[|] h1];
      reduce_run.
    + destruct (hw_apRead T MEM_DRW h1) as [[v|] h2]; reduce_run.
      * destruct (halted v) eqn:Hv; reduce_run.
        -- unfold result, final, events. cbn [fst snd lastReadback logLevel].
           repeat split; eauto; repeat constructor; auto.
        -- specialize (IH (Some v) (mkProbe h2 (logLevel s))).
           destruct (haltLoop T n (Some v) (mkProbe h2 (logLevel s)))
             as [[[k d'] s'] e].
           unfold result, final, events in *.
           cbn [fst snd lastReadback logLevel] in *.
           destruct IH as (Lv & F & D & Hk).
           repeat split; auto; repeat constructor; auto.
      * specialize (IH d (mkProbe h2 (logLevel s))).
        destruct (haltLoop T n d (mkProbe h2 (logLevel s)))
          as [[[k d'] s'] e].
        unfold result, final, events in *.
        cbn [fst snd lastReadback logLevel] in *.
        destruct IH as (Lv & F & D & Hk).
        repeat split; auto; repeat constructor; auto.
    + specialize (IH d (mkProbe h1 (logLevel s))).
      destruct (haltLoop T n d (mkProbe h1 (logLevel s)))
        as [[[k d'] s'] e].
      unfold result, final, events in *.
      cbn [fst snd lastReadback logLevel] in *.
      destruct IH as (Lv & F & D & Hk).
      repeat split; auto; repeat constructor; auto.
Qed.

(** The whole of phase 5: the attempts of the race, all at verbosity
    [LOG_NONE]; then the cleanup, once; then, at the restored verbosity,
    the verdict, which on failure carries what [dhcsr] holds. *)
Lemma phase5_log (s : Probe H) :
  let out := phase5 T s in
  exists (race : list Entry) (okc : bool),
    events out =
      race ++ [(LOG_NONE, EvInitMemPort okc);
               (logLevel s, verdict (result out) (lastReadback None race))]
    /\ Forall (fun x => fst x = LOG_NONE /\ onHaltRace (snd x) = true) race
    /\ logLevel (final out) = logLevel s
    /\ (lastReadback None race = None -> result out = false).
Proof.
  unfold phase5. unfold_ops. reduce_run.
  pose proof (haltLoop_log 200 None (mkProbe (hw s) LOG_NONE)) as L.
  destruct (haltLoop T 200 None (mkProbe (hw s) LOG_NONE))
    as [[[k d] s1] e].
  unfold result, final, events in *. cbn [fst snd logLevel] in *.
  destruct L as (Lv & F & D & Hk).
  destruct (hw_initMemPort T (hw s1)) as [okc h2]. reduce_run.
  exists e, okc. rewrite Lv, <- D.
  destruct k as [|k]; cbn [Nat.eqb negb]; reduce_run.
  - cbn [verdict]. repeat split; auto; tidy.
  - cbn [verdict]. repeat split; auto; tidy.
    intros N. destruct Hk as (v & Hv & _); congruence.
Qed.

End HaltRace.

Section LogClasses.

Variables (Q : Event -> bool) (P : LogLevel -> Prop).

Lemma class_cleanups (l : list Entry) :
  (forall ok, Q (EvInitMemPort ok) = false) ->
  Forall (fun x => P (fst x) /\ Q (snd x) = true) l -> cleanups l = O.
Proof.
  intros N F. induction F as [|[lv e] l' [_ Hq] _ IH]; simpl; auto.
  destruct e; auto. simpl in Hq. rewrite N in Hq. discriminate.
Qed.

Lemma class_lastReadback (l : list Entry) (d : option Z) :
  (forall v, Q (EvApRead MEM_DRW (Some v)) = false) ->
  Forall (fun x => P (fst x) /\ Q (snd x) = true) l -> lastReadback d l = d.
Proof.
  intros N F. induction F as [|[lv e] l' [_ Hq] _ IH]; simpl; auto.
  destruct e as [[] [v|]| | | | |]; auto.
  simpl in Hq. rewrite N in Hq. discriminate.
Qed.

Lemma class_no_log (l : list Entry) (x : Entry) :
  (forall level msg args, Q (EvLog level msg args) = false) ->
  Forall (fun x => P (fst x) /\ Q (snd x) = true) l ->
  In x l -> forall level msg args, snd x <> EvLog level msg args.
Proof.
  intros N F I level msg args E. rewrite Forall_forall in F.
  destruct (F x I) as [_ Hq]. rewrite E, N in Hq. discriminate.
Qed.

Lemma class_no_memPort (l : list Entry) (x : Entry) :
  (forall e, Q e = true -> memPortAccess e = false) ->
  Forall (fun x => P (fst x) /\ Q (snd x) = true) l ->
  In x l -> memPortAccess (snd x) = false.
Proof.
  intros N F I. rewrite Forall_forall in F.
  now apply N, F.
Qed.

End LogClasses.

Lemma lastReadback_none (l : list Entry) :
  forall d : option Z,
    lastReadback d l = None <->
    d = None /\ forall lv v, ~ In (lv, EvApRead MEM_DRW (Some v)) l.
Proof.
  induction l as [|[lv e] l IH]; intros d; simpl.
  - split; [intros ->; split; auto | intros [-> _]; reflexivity].
  - assert (G : lastReadback d l = None <->
                d = None /\
                forall lv0 v, ~ In (lv0, EvApRead MEM_DRW (Some v)) l)
      by apply IH.
    assert (Other : forall e',
              (forall v, e' <> EvApRead MEM_DRW (Some v)) ->
              (d = None /\
               (forall lv0 v, ~ In (lv0, EvApRead MEM_DRW (Some v)) l)) <->
              (d = None /\
               (forall lv0 v,
                   ~ ((lv, e') = (lv0, EvApRead MEM_DRW (Some v))
                      \/ In (lv0, EvApRead MEM_DRW (Some v)) l)))).
    { intros e' Ne. split; intros [D N]; split; auto.
      - intros lv0 v [E|I]; [inversion E; subst; now apply (Ne v)|].
        now apply (N lv0 v).
      - intros lv0 v I. apply (N lv0 v). now right. }
    destruct e as [a r| | | | |];
      try (rewrite G; apply Other; discriminate).
    destruct a; try (rewrite G; apply Other; discriminate).
    destruct r as [v|]; [|rewrite G; apply Other; discriminate].
    rewrite IH. split.
    + intros [D _]. discriminate.
    + intros [_ N]. exfalso. apply (N lv v). now left.
Qed.

Section ResetHaltRace.

Context {K : KinetisRegs} {H : Type} (T : Transport H).

Lemma resetHalt_early (s : Probe H) :
  result (preHalt T s) = false ->
  resetHalt T s = (false, final (preHalt T s), events (preHalt T s)).
Proof. intros R. rewrite resetHalt_preHalt. now apply andThen_false. Qed.

Lemma race_cleanups (race : list Entry) :
  Forall (fun x => fst x = LOG_NONE /\ onHaltRace (snd x) = true) race ->
  cleanups race = O.
Proof.
  apply (class_cleanups onHaltRace (fun lv => lv = LOG_NONE)). reflexivity.
Qed.

Lemma preHalt_cleanups (s : Probe H) : cleanups (events (preHalt T s)) = O.
Proof.
  destruct (preHalt_disciplined T s) as (_ & F & _).
  revert F.
  apply (class_cleanups preHaltEvent (fun lv => lv = logLevel s)).
  reflexivity.
Qed.

Lemma preHalt_lastReadback (s : Probe H) (d : option Z) :
  lastReadback d (events (preHalt T s)) = d.
Proof.
  destruct (preHalt_disciplined T s) as (_ & F & _).
  revert F.
  apply (class_lastReadback preHaltEvent (fun lv => lv = logLevel s)).
  reflexivity.
Qed.

Lemma resetHalt_race (s : Probe H) :
  result (preHalt T s) = true ->
  let out := resetHalt T s in
  exists (race : list Entry) (okc : bool),
    events out =
      events (preHalt T s) ++ race ++
      [(LOG_NONE, EvInitMemPort okc);
       (logLevel s, verdict (result out) (lastReadback None race))]
    /\ Forall (fun x => fst x = LOG_NONE /\ onHaltRace (snd x) = true) race
    /\ logLevel (final out) = logLevel s
    /\ (lastReadback None race = None -> result out = false)
    /\ lastReadback None (events out) = lastReadback None race.
Proof.
  intros R out. subst out.
  rewrite resetHalt_preHalt, (andThen_true _ _ _ R).
  destruct (preHalt_disciplined T s) as (Lv & _).
  destruct (phase5_log T (final (preHalt T s)))
    as (race & okc & E & F & Lv5 & N).
  rewrite Lv in *.
  exists race, okc. rewrite result_mk, final_mk, events_mk, E.
  repeat split; auto.
  rewrite !lastReadback_app, preHalt_lastReadback.
  generalize (result (phase5 T (final (preHalt T s)))).
  intros [|]; reflexivity.
Qed.

End ResetHaltRace.

(** C3.  On every path [resetHalt] leaves the process-wide verbosity as it
    found it.  Whenever the halt race is entered (phases 1 to 4 succeeded),
    and whether halt is then achieved or the retries are exhausted, the
    activity after phase 4 is: the attempts of the race, every one of them
    issued at the suppressed verbosity [LOG_NONE]; then [initMemPort],
    after the loop; then the verdict, logged at the verbosity in force
    before the call.  [initMemPort] is invoked exactly once in the whole
    call. *)
Theorem resetHalt_cleanup_and_verbosity :
  forall (K : KinetisRegs) (H : Type) (T : Transport H) (s : Probe H),
    let pre := preHalt T s in
    let out := resetHalt T s in
    logLevel (final out) = logLevel s
    /\ (result pre = true ->
        exists (race : list Entry) (okc : bool),
          events out =
            events pre ++ race ++
            [(LOG_NONE, EvInitMemPort okc);
             (logLevel s, verdict (result out) (lastReadback None race))]
          /\ Forall (fun x => fst x = LOG_NONE /\ onHaltRace (snd x) = true)
                    race
          /\ cleanups (events out) = 1%nat).
Proof.
  intros K H T s pre out. subst pre out. split.
  - destruct (result (preHalt T s)) eqn:R.
    + now destruct (resetHalt_race T s R) as (race & okc & _ & _ & Lv & _).
    + rewrite (resetHalt_early T s R), final_mk.
      now destruct (preHalt_disciplined T s) as (Lv & _).
  - intros R.
    destruct (resetHalt_race T s R) as (race & okc & E & F & _).
    exists race, okc. repeat split; auto.
    rewrite E, !cleanups_app, preHalt_cleanups, (race_cleanups race F).
    generalize (result (resetHalt T s)). intros [|]; reflexivity.
Qed.

Lemma lastReadback_some (l : list Entry) :
  forall (d : option Z) (v : Z),
    lastReadback d l = Some v ->
    d = Some v \/ exists lv, In (lv, EvApRead MEM_DRW (Some v)) l.
Proof.
  induction l as [|[lv e] l IH]; intros d v; simpl; auto.
  assert (G : lastReadback d l = Some v ->
              d = Some v \/
              exists lv0, (lv, e) = (lv0, EvApRead MEM_DRW (Some v))
                          \/ In (lv0, EvApRead MEM_DRW (Some v)) l).
  { intros E. destruct (IH d v E) as [D|[lv0 I]]; eauto. }
  destruct e as [a r| | | | |]; auto.
  destruct a; auto. destruct r as [u|]; auto.
  intros E. right.
  destruct (IH (Some u) v E) as [D|[lv0 I]]; eauto.
  inversion D; subst. eauto.
Qed.

(** C10.  The [dhcsr] variable of [resetHalt] holds what the last
    successful readback of the halt race stored, and nothing before that.
    The halt-failure diagnostic is only ever logged as an error, on a
    failing call, and its argument is that variable.  The variable is
    unassigned exactly when no readback of the call succeeded; then, if the
    race was entered, the call fails and the diagnostic formats the
    unassigned variable.  When the variable holds a value, a successful
    readback of the call returned it. *)
Theorem resetHalt_dhcsr_report :
  forall (K : KinetisRegs) (H : Type) (T : Transport H) (s : Probe H),
    let pre := preHalt T s in
    let out := resetHalt T s in
    let dhcsr := lastReadback None (events out) in
    (forall lv level args,
        In (lv, EvLog level haltFailure args) (events out) ->
        level = LOG_ERROR /\ args = [dhcsr] /\ result out = false)
    /\ (dhcsr = None <->
        forall lv v, ~ In (lv, EvApRead MEM_DRW (Some v)) (events out))
    /\ (result pre = true -> dhcsr = None ->
        result out = false
        /\ In (logLevel s, EvLog LOG_ERROR haltFailure [None]) (events out))
    /\ (forall v, dhcsr = Some v ->
        exists lv, In (lv, EvApRead MEM_DRW (Some v)) (events out)).
Proof.
  intros K H T s pre out dhcsr. subst pre out dhcsr.
  split; [|split; [|split]].
  - intros lv level args I.
    destruct (preHalt_disciplined T s) as (_ & Fp & _).
    destruct (result (preHalt T s)) eqn:R.
    + destruct (resetHalt_race T s R) as (race & okc & E & F & _ & _ & D).
      rewrite D. rewrite E in I.
      apply in_app_or in I as [I|I];
        [|apply in_app_or in I as [I|[I|[I|[]]]]].
      * exfalso.
        apply (class_no_log preHaltEvent (fun l => l = logLevel s) _ _
                 (fun _ _ _ => eq_refl) Fp I level haltFailure args).
        reflexivity.
      * exfalso.
        apply (class_no_log onHaltRace (fun l => l = LOG_NONE) _ _
                 (fun _ _ _ => eq_refl) F I level haltFailure args).
        reflexivity.
      * discriminate.
      * destruct (result (resetHalt T s)); inversion I; auto.
    + rewrite (resetHalt_early T s R), events_mk in I. exfalso.
      apply (class_no_log preHaltEvent (fun l => l = logLevel s) _ _
               (fun _ _ _ => eq_refl) Fp I level haltFailure args).
      reflexivity.
  - rewrite lastReadback_none. split; [intros [_ N]; exact N | auto].
  - intros R N.
    destruct (resetHalt_race T s R) as (race & okc & E & F & _ & Z & D).
    rewrite D in N. specialize (Z N). split; [exact Z|].
    rewrite E, Z, N. apply in_or_app. right. apply in_or_app. right.
    simpl. auto.
  - intros v E. apply lastReadback_some in E as [E|E]; [discriminate|auto].
Qed.

(** ** The safe-state poll *)

Section SafeState.

Context {K : KinetisRegs} {H : Type} (T : Transport H).

Hypothesis security_apart :
  Z.land REG_MDM_STATUS_SYS_SECURITY
    (Z.lor REG_MDM_STATUS_SYS_NRESET REG_MDM_STATUS_FLASH_READY) = 0.

Lemma safe_match (v : Z) :
  pollMatch safeMask safeExpected v = true <-> safeState v.
Proof.
  unfold pollMatch, safeMask, safeExpected, safeState.
  rewrite Z.eqb_eq.
  set (n := REG_MDM_STATUS_SYS_NRESET) in *.
  set (f := REG_MDM_STATUS_FLASH_READY) in *.
  set (c := REG_MDM_STATUS_SYS_SECURITY) in *.
  assert (A : forall i, Z.testbit c i && (Z.testbit n i || Z.testbit f i)
                        = false).
  { intros i. rewrite <- Z.lor_spec, <- Z.land_spec, security_apart.
    apply Z.bits_0. }
  split.
  - intros E.
    assert (B : forall i,
               Z.testbit v i
                 && (Z.testbit n i || Z.testbit f i || Z.testbit c i)
               = (Z.testbit n i || Z.testbit f i)
                 && (Z.testbit n i || Z.testbit f i || Z.testbit c i)).
    { intros i. rewrite <- !Z.lor_spec, <- !Z.land_spec, E. reflexivity. }
    repeat split; apply Z.bits_inj'; intros i _;
      rewrite ?Z.land_spec, ?Z.bits_0;
      specialize (A i); specialize (B i);
      destruct (Z.testbit v i), (Z.testbit n i), (Z.testbit f i),
        (Z.testbit c i); simpl in *; congruence.
  - intros (En & Ef & Ec).
    apply Z.bits_inj'; intros i _.
    rewrite !Z.land_spec, !Z.lor_spec. specialize (A i).
    assert (Bn := f_equal (fun z => Z.testbit z i) En).
    assert (Bf := f_equal (fun z => Z.testbit z i) Ef).
    assert (Bc := f_equal (fun z => Z.testbit z i) Ec).
    cbv beta in Bn, Bf, Bc.
    rewrite Z.land_spec in Bn, Bf, Bc. rewrite Z.bits_0 in Bc.
    destruct (Z.testbit v i), (Z.testbit n i), (Z.testbit f i),
      (Z.testbit c i); simpl in *; congruence.
Qed.

Lemma phase3_log (s : Probe H) :
  let out := phase3 T s in
  Forall (fun x => exists r, snd x = EvApRead REG_MDM_STATUS r) (events out)
  /\ (List.length (events out) <= S resetRetries)%nat
  /\ (result out = true ->
      exists pre v,
        events out = pre ++ [(logLevel s, EvApRead REG_MDM_STATUS (Some v))]
        /\ safeState v).
Proof.
  unfold phase3, bind, ret, result, events.
  destruct (apReadPoll T REG_MDM_STATUS safeMask safeExpected resetRetries s)
    as [[[ok v] s'] e] eqn:E.
  apply apReadPoll_log in E as (L & _ & Len).
  cbn [fst snd]. rewrite app_nil_r. repeat split; auto.
  - apply (pollLog_reads _ _ _ _ _ _ L).
  - intros ->. destruct (pollLog_hit _ _ _ _ _ _ L eq_refl) as (pre & u & -> & Hu).
    exists pre, u. split; [reflexivity|]. now apply safe_match.
Qed.

Lemma resetPhases_disciplined : Disciplined resetEvent (resetPhases T).
Proof.
  exact (andThen_disciplined _ _ _ (phase1_disciplined T)
           (andThen_disciplined _ _ _ (phase2_disciplined T)
              (phase3_disciplined T))).
Qed.

Lemma andThen_result (p q : M H bool) (s : Probe H) :
  result (andThen p q s) = true ->
  result (p s) = true /\ result (q (final (p s))) = true.
Proof.
  destruct (result (p s)) eqn:R.
  - rewrite (andThen_true p q s R), result_mk. auto.
  - rewrite (andThen_false p q s R), result_mk. discriminate.
Qed.

(** When the reset phases succeed, the last thing they did was to read a
    safe Status. *)
Lemma resetPhases_end (s : Probe H) :
  result (resetPhases T s) = true ->
  exists pre lv v,
    events (resetPhases T s) =
      pre ++ [(lv, EvApRead REG_MDM_STATUS (Some v))]
    /\ safeState v.
Proof.
  unfold resetPhases. intros R.
  destruct (andThen_result _ _ _ R) as [R1 R23].
  destruct (andThen_result _ _ _ R23) as [R2 R3].
  rewrite (andThen_true _ _ _ R1), events_mk.
  rewrite (andThen_true _ _ _ R2), events_mk.
  destruct (phase3_log (final (phase2 T (final (phase1 T s)))))
    as (_ & _ & Hit).
  destruct (Hit R3) as (pre & v & -> & Sv).
  exists (events (phase1 T s)
            ++ events (phase2 T (final (phase1 T s))) ++ pre),
    (logLevel (final (phase2 T (final (phase1 T s))))), v.
  split; [|exact Sv]. now rewrite <- !app_assoc.
Qed.

Lemma resetHalt_resetPhases (s : Probe H) :
  resetHalt T s =
  andThen (resetPhases T) (andThen (phase4 T) (phase5 T)) s.
Proof.
  rewrite resetHalt_phases. unfold resetPhases.
  rewrite andThen_assoc. apply andThen_ext. intros s1.
  rewrite andThen_assoc. reflexivity.
Qed.

End SafeState.

Lemma split_past (P : Entry -> bool) (A : list Entry) :
  forall (B pre post : list Entry) (x : Entry),
    A ++ B = pre ++ x :: post ->
    (forall y, In y A -> P y = false) ->
    P x = true ->
    exists pre', pre = A ++ pre'.
Proof.
  induction A as [|a A IH]; intros B pre post x E N Px; simpl in *.
  - now exists pre.
  - destruct pre as [|b pre]; simpl in E; inversion E; subst.
    + rewrite N in Px by auto. discriminate.
    + destruct (IH B pre post x H1) as [pre' ->]; auto.
      now exists pre'.
Qed.

(** C6.  Phase 3 of [resetHalt] is one poll of Status whose mask is the
    reset-line, flash-ready and security bits together and whose expected
    value is the reset-line and flash-ready bits, with the budget of 2000
    retries: it only reads Status, at most 2001 times, and when it succeeds
    the value it read last has the reset-line and flash-ready bits at 1 and
    the security bit at 0.  In any run of [resetHalt], every access through
    the memory port (the set-up of CSW and TAR, the attempts of the halt
    race, the re-initialisation) comes after a read of Status that returned
    such a value. *)
Theorem resetHalt_safe_state_poll :
  forall (K : KinetisRegs) (H : Type) (T : Transport H) (s : Probe H),
    Z.land REG_MDM_STATUS_SYS_SECURITY
      (Z.lor REG_MDM_STATUS_SYS_NRESET REG_MDM_STATUS_FLASH_READY) = 0 ->
    (forall s3 : Probe H,
        let o3 := phase3 T s3 in
        o3 = polled
               (apReadPoll T REG_MDM_STATUS
                  (Z.lor (Z.lor REG_MDM_STATUS_SYS_NRESET
                                REG_MDM_STATUS_FLASH_READY)
                         REG_MDM_STATUS_SYS_SECURITY)
                  (Z.lor REG_MDM_STATUS_SYS_NRESET REG_MDM_STATUS_FLASH_READY)
                  2000) s3
        /\ Forall (fun x => exists r, snd x = EvApRead REG_MDM_STATUS r)
                  (events o3)
        /\ (List.length (events o3) <= S 2000)%nat
        /\ (result o3 = true ->
            exists pre v,
              events o3 =
                pre ++ [(logLevel s3, EvApRead REG_MDM_STATUS (Some v))]
              /\ safeState v))
    /\ (forall (pre post : list Entry) (x : Entry),
           events (resetHalt T s) = pre ++ x :: post ->
           memPortAccess (snd x) = true ->
           exists lv v,
             In (lv, EvApRead REG_MDM_STATUS (Some v)) pre /\ safeState v).
Proof.
  intros K H T s Apart. split.
  - intros s3 o3. subst o3.
    destruct (phase3_log T Apart s3) as (Rd & Len & Hit).
    repeat split; auto.
  - intros pre post x E Mx. rewrite resetHalt_resetPhases in E.
    destruct (resetPhases_disciplined T s) as (_ & F & _).
    assert (N : forall y, In y (events (resetPhases T s)) ->
                          memPortAccess (snd y) = false).
    { intros y Iy.
      apply (class_no_memPort resetEvent (fun l => l = logLevel s)
               (events (resetPhases T s))); auto.
      intros e. destruct e as [[]|[]| | | |]; simpl; auto; discriminate. }
    destruct (result (resetPhases T s)) eqn:R.
    + rewrite (andThen_true _ _ _ R), events_mk in E.
      destruct (resetPhases_end T Apart s R) as (p0 & lv & v & E0 & Sv).
      destruct (split_past (fun y => memPortAccess (snd y))
                  (events (resetPhases T s)) _ pre post x E N Mx)
        as [pre' ->].
      exists lv, v. split; [|exact Sv].
      rewrite E0. apply in_or_app. left. apply in_or_app. right.
      now left.
    + rewrite (andThen_false _ _ _ R), events_mk in E.
      rewrite N in Mx; [discriminate|].
      rewrite E. apply in_or_app. right. now left.
Qed.

Lemma resetHalt_safe_state_poll_witness :
  let out :=
    @resetHalt Sim.k20 _ Sim.scripted
      (Sim.probe (Sim.resetScript ++ Sim.attempt Sim.haltedValue ++ [Sim.ack]))
  in
  exists lv v,
    In (lv, EvApRead REG_MDM_STATUS (Some v))
       (firstn 6 (events out))
    /\ @safeState Sim.k20 v.
Proof.
  intros out.
  apply (proj2 (resetHalt_safe_state_poll Sim.k20 Sim.Script Sim.scripted
                  (Sim.probe (Sim.resetScript
                                ++ Sim.attempt Sim.haltedValue ++ [Sim.ack]))
                  eq_refl)
           (firstn 6 (events out)) (skipn 7 (events out))
           (nth 6 (events out) (LOG_NONE, EvInitMemPort true))).
  - vm_compute. reflexivity.
  - reflexivity.
Defined.

(** ** Peripheral bring-up *)

Section PeripheralInit.

Context {K : KinetisRegs} {H : Type} (T : Transport H).

Lemma peripheralInit_success (s : Probe H) :
  result (peripheralInit T s) = true <->
  bare (events (peripheralInit T s)) = bringUpLog.
Proof.
  unfold peripheralInit, memStoreAndVerify, bringUpLog, ramTestAddress,
    ramPattern1, ramPattern2.
  unfold_ops. reduce_run.
  destruct (hw_memStore T REG_SIM_SCGC5 _ (hw s)) as [[|] h1]; reduce_run.
  2: split; [discriminate | intros E; inversion E].
  destruct (hw_memStore T REG_SIM_SCGC6 _ h1) as [[|] h2]; reduce_run.
  2: split; [discriminate | intros E; inversion E].
  destruct (hw_memStore T 0x20000000 0x31415927 h2) as [[|] h3]; reduce_run.
  2: split; [discriminate | intros E; inversion E].
  destruct (hw_memLoad T 0x20000000 h3) as [[v|] h4]; reduce_run.
  2: split; [discriminate | intros E; inversion E].
  destruct (Z.eqb_spec v 0x31415927) as [->|Nv]; reduce_run.
  2: split; [discriminate | intros E; inversion E; contradiction].
  destruct (hw_memStore T 0x20000000 0x76543210 h4) as [[|] h5]; reduce_run.
  2: split; [discriminate | intros E; inversion E].
  destruct (hw_memLoad T 0x20000000 h5) as [[w|] h6]; reduce_run.
  2: split; [discriminate | intros E; inversion E].
  destruct (Z.eqb_spec w 0x76543210) as [->|Nw]; reduce_run.
  2: split; [discriminate | intros E; inversion E; contradiction].
  split; reflexivity.
Qed.

End PeripheralInit.

Section PeripheralRun.

Context {K : KinetisRegs} {H : Type} (T : Transport H).

Ltac answer :=
  unfold peripheralInit, memStoreAndVerify; unfold_ops; reduce_run;
  repeat (first
            [ match goal with
              | E : _ = (_, _) |- _ => rewrite E; clear E
              | N : (_ =? _) = false |- _ => rewrite N; clear N
              end
            | progress rewrite Z.eqb_refl ];
          reduce_run).

(** [peripheralInit] read off the answers of the transport, step by step:
    what it issues next, and where it stops. *)
Lemma peripheralInit_run (s : Probe H) :
  let out := peripheralInit T s in
  let lv := logLevel s in
  let gate5 ok := (lv, EvMemStore REG_SIM_SCGC5 0x00043F82 ok) in
  let gate6 ok :=
    (lv, EvMemStore REG_SIM_SCGC6
           (Z.lor (Z.lor REG_SIM_SCGC6_FTM0 REG_SIM_SCGC6_FTM1)
                  REG_SIM_SCGC6_FTFL) ok) in
  let store p ok := (lv, EvMemStore 0x20000000 p ok) in
  let load r := (lv, EvMemLoad 0x20000000 r) in
  (forall h1,
      hw_memStore T REG_SIM_SCGC5 0x00043F82 (hw s) = (false, h1) ->
      out = (false, mkProbe h1 lv, [gate5 false]))
  /\ (forall h1 h2,
      hw_memStore T REG_SIM_SCGC5 0x00043F82 (hw s) = (true, h1) ->
      hw_memStore T REG_SIM_SCGC6
        (Z.lor (Z.lor REG_SIM_SCGC6_FTM0 REG_SIM_SCGC6_FTM1)
               REG_SIM_SCGC6_FTFL) h1 = (false, h2) ->
      out = (false, mkProbe h2 lv, [gate5 true; gate6 false]))
  /\ (forall h1 h2,
      hw_memStore T REG_SIM_SCGC5 0x00043F82 (hw s) = (true, h1) ->
      hw_memStore T REG_SIM_SCGC6
        (Z.lor (Z.lor REG_SIM_SCGC6_FTM0 REG_SIM_SCGC6_FTM1)
               REG_SIM_SCGC6_FTFL) h1 = (true, h2) ->
      (forall h3,
          hw_memStore T 0x20000000 0x31415927 h2 = (false, h3) ->
          out = (false, mkProbe h3 lv,
                 [gate5 true; gate6 true; store 0x31415927 false]))
      /\ (forall h3 h4,
          hw_memStore T 0x20000000 0x31415927 h2 = (true, h3) ->
          hw_memLoad T 0x20000000 h3 = (None, h4) ->
          out = (false, mkProbe h4 lv,
                 [gate5 true; gate6 true; store 0x31415927 true; load None]))
      /\ (forall h3 h4 v,
          hw_memStore T 0x20000000 0x31415927 h2 = (true, h3) ->
          hw_memLoad T 0x20000000 h3 = (Some v, h4) ->
          v <> 0x31415927 ->
          out = (false, mkProbe h4 lv,
                 [gate5 true; gate6 true; store 0x31415927 true;
                  load (Some v)]))
      /\ (forall h3 h4,
          hw_memStore T 0x20000000 0x31415927 h2 = (true, h3) ->
          hw_memLoad T 0x20000000 h3 = (Some 0x31415927, h4) ->
          (forall h5,
              hw_memStore T 0x20000000 0x76543210 h4 = (false, h5) ->
              out = (false, mkProbe h5 lv,
                     [gate5 true; gate6 true; store 0x31415927 true;
                      load (Some 0x31415927); store 0x76543210 false]))
          /\ (forall h5 h6,
              hw_memStore T 0x20000000 0x76543210 h4 = (true, h5) ->
              hw_memLoad T 0x20000000 h5 = (None, h6) ->
              out = (false, mkProbe h6 lv,
                     [gate5 true; gate6 true; store 0x31415927 true;
                      load (Some 0x31415927); store 0x76543210 true;
                      load None]))
          /\ (forall h5 h6 w,
              hw_memStore T 0x20000000 0x76543210 h4 = (true, h5) ->
              hw_memLoad T 0x20000000 h5 = (Some w, h6) ->
              out = (w =? 0x76543210, mkProbe h6 lv,
                     [gate5 true; gate6 true; store 0x31415927 true;
                      load (Some 0x31415927); store 0x76543210 true;
                      load (Some w)])))).
Proof.
  cbv zeta.
  repeat match goal with
         | |- _ /\ _ => split
         | |- forall _, _ => intro
         end.
  1-4, 6-7: answer; reflexivity.
  - match goal with N : _ <> _ |- _ => apply Z.eqb_neq in N end.
    answer. reflexivity.
  - answer.
    match goal with |- context [?a =? ?b] => destruct (a =? b) end;
      reflexivity.
Qed.

End PeripheralRun.

(** C8.  [peripheralInit], read off the answers of the transport: after
    the two clock-gate stores are accepted it stores 0x31415927 at
    0x20000000 and loads it back from there; if the value read back
    differs it fails at once, without a second round-trip; if it is the
    same, it stores 0x76543210 at the same address, loads it back and
    succeeds exactly when that value is read back identically, so a second
    round-trip that differs fails the call after a first that succeeded.
    A clock-gate store, a store or a load that the transport fails ends
    the call with failure.  Hence the call succeeds exactly when its log
    is that of two accepted clock-gate stores followed by the two
    round-trips read back as written; the two patterns differ; and
    whenever a round-trip in the log reads back another value than it
    wrote, the call has failed. *)
Theorem peripheralInit_round_trips :
  forall (K : KinetisRegs) (H : Type) (T : Transport H) (s : Probe H),
    let out := peripheralInit T s in
    let lv := logLevel s in
    let gate5 ok := (lv, EvMemStore REG_SIM_SCGC5 0x00043F82 ok) in
    let gate6 ok :=
      (lv, EvMemStore REG_SIM_SCGC6
             (Z.lor (Z.lor REG_SIM_SCGC6_FTM0 REG_SIM_SCGC6_FTM1)
                    REG_SIM_SCGC6_FTFL) ok) in
    let store p ok := (lv, EvMemStore 0x20000000 p ok) in
    let load r := (lv, EvMemLoad 0x20000000 r) in
    (result out = true <-> bare (events out) = bringUpLog)
    /\ ramTestAddress = 0x20000000
    /\ ramPattern1 <> ramPattern2
    /\ (forall (pre post : list Event) (pattern v : Z),
           bare (events out) =
             pre ++ EvMemStore ramTestAddress pattern true
                 :: EvMemLoad ramTestAddress (Some v) :: post ->
           v <> pattern -> result out = false)
    /\ (forall (v : Z) (post : list Event),
           bare (events out) =
             firstn 4 bringUpLog
               ++ EvMemStore ramTestAddress ramPattern2 true
               :: EvMemLoad ramTestAddress (Some v) :: post ->
           v <> ramPattern2 -> result out = false)
    /\ (forall h1,
           hw_memStore T REG_SIM_SCGC5 0x00043F82 (hw s) = (false, h1) ->
           out = (false, mkProbe h1 lv, [gate5 false]))
    /\ (forall h1 h2,
           hw_memStore T REG_SIM_SCGC5 0x00043F82 (hw s) = (true, h1) ->
           hw_memStore T REG_SIM_SCGC6
             (Z.lor (Z.lor REG_SIM_SCGC6_FTM0 REG_SIM_SCGC6_FTM1)
                    REG_SIM_SCGC6_FTFL) h1 = (false, h2) ->
           out = (false, mkProbe h2 lv, [gate5 true; gate6 false]))
    /\ (forall h1 h2,
           hw_memStore T REG_SIM_SCGC5 0x00043F82 (hw s) = (true, h1) ->
           hw_memStore T REG_SIM_SCGC6
             (Z.lor (Z.lor REG_SIM_SCGC6_FTM0 REG_SIM_SCGC6_FTM1)
                    REG_SIM_SCGC6_FTFL) h1 = (true, h2) ->
           (forall h3,
               hw_memStore T 0x20000000 0x31415927 h2 = (false, h3) ->
               out = (false, mkProbe h3 lv,
                      [gate5 true; gate6 true; store 0x31415927 false]))
           /\ (forall h3 h4,
               hw_memStore T 0x20000000 0x31415927 h2 = (true, h3) ->
               hw_memLoad T 0x20000000 h3 = (None, h4) ->
               out = (false, mkProbe h4 lv,
                      [gate5 true; gate6 true; store 0x31415927 true;
                       load None]))
           /\ (forall h3 h4 v,
               hw_memStore T 0x20000000 0x31415927 h2 = (true, h3) ->
               hw_memLoad T 0x20000000 h3 = (Some v, h4) ->
               v <> 0x31415927 ->
               out = (false, mkProbe h4 lv,
                      [gate5 true; gate6 true; store 0x31415927 true;
                       load (Some v)]))
           /\ (forall h3 h4,
               hw_memStore T 0x20000000 0x31415927 h2 = (true, h3) ->
               hw_memLoad T 0x20000000 h3 = (Some 0x31415927, h4) ->
               (forall h5,
                   hw_memStore T 0x20000000 0x76543210 h4 = (false, h5) ->
                   out = (false, mkProbe h5 lv,
                          [gate5 true; gate6 true; store 0x31415927 true;
                           load (Some 0x31415927); store 0x76543210 false]))
               /\ (forall h5 h6,
                   hw_memStore T 0x20000000 0x76543210 h4 = (true, h5) ->
                   hw_memLoad T 0x20000000 h5 = (None, h6) ->
                   out = (false, mkProbe h6 lv,
                          [gate5 true; gate6 true; store 0x31415927 true;
                           load (Some 0x31415927); store 0x76543210 true;
                           load None]))
               /\ (forall h5 h6 w,
                   hw_memStore T 0x20000000 0x76543210 h4 = (true, h5) ->
                   hw_memLoad T 0x20000000 h5 = (Some w, h6) ->
                   out = (w =? 0x76543210, mkProbe h6 lv,
                          [gate5 true; gate6 true; store 0x31415927 true;
                           load (Some 0x31415927); store 0x76543210 true;
                           load (Some w)])))).
Proof.
  intros K H T s out lv gate5 gate6 store load.
  subst out lv gate5 gate6 store load.
  assert (Mis : forall (pre post : list Event) (pattern v : Z),
             bare (events (peripheralInit T s)) =
               pre ++ EvMemStore ramTestAddress pattern true
                   :: EvMemLoad ramTestAddress (Some v) :: post ->
             v <> pattern -> result (peripheralInit T s) = false).
  { intros pre post pattern v E N.
    destruct (result (peripheralInit T s)) eqn:R; [|reflexivity].
    apply peripheralInit_success in R. rewrite R in E. exfalso.
    unfold bringUpLog in E.
    repeat (destruct pre as [|? pre];
            [simpl in E; inversion E; subst; now apply N|];
            simpl in E; inversion E; subst; clear E;
            match goal with Hx : _ = _ ++ _ |- _ => rename Hx into E end). }
  split; [apply peripheralInit_success|].
  split; [reflexivity|]. split; [discriminate|]. split; [exact Mis|].
  split; [intros v post; apply Mis|].
  exact (peripheralInit_run T s).
Qed.

(** ** Failed accesses *)

Ltac strict_stops :=
  repeat (cbn [failStops failedAccess anyAccess andb forallb negb isAccess
                 snd];
          first
            [ reflexivity
            | rewrite failStops_app_clean
                by (eapply pollLog_clean; [eassumption|reflexivity])
            | apply failStops_app_quiet;
                [eapply pollLog_failStops; eassumption | reflexivity]
            | eapply pollLog_failStops; eassumption ]).

Ltac strict_clean :=
  unfold anyFailed;
  repeat (cbn [existsb failedAccess anyAccess andb orb snd];
          first
            [ reflexivity
            | rewrite existsb_app;
              match goal with
              | L : PollLog _ _ _ _ true ?e |- context [existsb _ ?e] =>
                  rewrite (pollLog_clean _ _ _ _ _ _ L anyAccess eq_refl
                           : existsb _ e = false)
              end ]).

Ltac strict_leaf :=
  unfold result, events; cbn [fst snd];
  split; [strict_stops | intros R; try discriminate R; strict_clean].

Section Strictness.

Context {K : KinetisRegs} {H : Type} (T : Transport H).

Lemma detect_strict (s : Probe H) :
  failStops anyAccess (events (detect T s)) = true
  /\ (result (detect T s) = true ->
      anyFailed anyAccess (events (detect T s)) = false).
Proof.
  unfold detect. unfold_ops.
  destruct (hw_apRead T REG_MDM_IDR (hw s)) as [[idr|] h]; reduce_run.
  - destruct (idr =? 0x001C0000); reduce_run; strict_leaf.
  - strict_leaf.
Qed.

Lemma flashMassErase_strict (s : Probe H) :
  failStops anyAccess (events (flashMassErase T s)) = true
  /\ (result (flashMassErase T s) = true ->
      anyFailed anyAccess (events (flashMassErase T s)) = false).
Proof.
  unfold flashMassErase. unfold_ops.
  destruct (hw_apRead T REG_MDM_STATUS (hw s)) as [[status|] h];
    reduce_run; [|strict_leaf].
  destruct (flagSet status REG_MDM_STATUS_FLASH_READY); reduce_run;
    [|strict_leaf].
  destruct (flagSet status REG_MDM_STATUS_FLASH_ERASE_ACK); reduce_run;
    [strict_leaf|].
  destruct (flagSet status REG_MDM_STATUS_MASS_ERASE_ENABLE); reduce_run;
    [|strict_leaf].
  run_write; reduce_run; [|strict_leaf].
  run_poll. reduce_run. destruct ok; reduce_run; [|strict_leaf].
  run_poll. reduce_run. destruct ok; reduce_run; [|strict_leaf].
  destruct (hw_apRead T REG_MDM_STATUS (hw s1)) as [[st|] h3]; reduce_run;
    [|strict_leaf].
  destruct (flagSet st REG_MDM_STATUS_FLASH_READY); reduce_run;
    strict_leaf.
Qed.

End Strictness.

Section ResetHaltStrictness.

Context {K : KinetisRegs} {H : Type} (T : Transport H).

Lemma race_clean (race : list Entry) :
  Forall (fun x => fst x = LOG_NONE /\ onHaltRace (snd x) = true) race ->
  anyFailed offHaltRace race = false.
Proof.
  unfold anyFailed, offHaltRace.
  induction 1 as [|[lv e] l [_ Hq] _ IH]; simpl in *; auto.
  rewrite Hq, IH. simpl. now rewrite andb_false_r.
Qed.

Lemma resetHalt_strict (s : Probe H) :
  failStops offHaltRace (events (resetHalt T s)) = true
  /\ (result (resetHalt T s) = true ->
      anyFailed offHaltRace (events (resetHalt T s)) = false).
Proof.
  destruct (preHalt_disciplined T s) as (_ & _ & S1 & S2).
  destruct (result (preHalt T s)) eqn:R.
  - destruct (resetHalt_race T s R) as (race & okc & E & F & _).
    assert (C : anyFailed offHaltRace (events (resetHalt T s)) = false).
    { rewrite E, !anyFailed_app, (S2 offHaltRace eq_refl),
        (race_clean race F).
      generalize (result (resetHalt T s)). intros [|]; reflexivity. }
    split; [now apply anyFailed_failStops | auto].
  - rewrite (resetHalt_early T s R), result_mk, events_mk.
    split; [apply S1 | discriminate].
Qed.

(** In the halt race a failed write does not end the operation: the
    attempt is abandoned and the loop goes on with the next one. *)
Lemma haltLoop_write_failed (n : nat) (d : option Z) (s : Probe H) (h : H) :
  hw_apWrite T MEM_DRW 0xA05F0003 (hw s) = (false, h) ->
  let rest := haltLoop T n d (mkProbe h (logLevel s)) in
  haltLoop T (S n) d s =
    (result rest, final rest,
     (logLevel s, EvApWrite MEM_DRW 0xA05F0003 false) :: events rest).
Proof.
  intros E rest. subst rest. cbn [haltLoop]. unfold_ops. rewrite E.
  reduce_run.
  now destruct (haltLoop T n d (mkProbe h (logLevel s))) as [[r s'] e].
Qed.

(** Nor does a failed readback. *)
Lemma haltLoop_read_failed (n : nat) (d : option Z) (s : Probe H)
    (h h' : H) :
  hw_apWrite T MEM_DRW 0xA05F0003 (hw s) = (true, h) ->
  hw_apRead T MEM_DRW h = (None, h') ->
  let rest := haltLoop T n d (mkProbe h' (logLevel s)) in
  haltLoop T (S n) d s =
    (result rest, final rest,
     (logLevel s, EvApWrite MEM_DRW 0xA05F0003 true)
     :: (logLevel s, EvApRead MEM_DRW None) :: events rest).
Proof.
  intros E E' rest. subst rest. cbn [haltLoop]. unfold_ops. rewrite E.
  reduce_run. rewrite E'. reduce_run.
  now destruct (haltLoop T n d (mkProbe h' (logLevel s))) as [[r s'] e].
Qed.

End ResetHaltStrictness.

(** C9, as the code has it.  In [detect], in [flashMassErase] and in phases
    1 to 4 of [resetHalt], an AP register read or write that the transport
    fails is the last access of the operation, which returns failure: the
    access is not issued again.  In the halt race of [resetHalt] a failed
    write or readback of the data register only abandons the current
    attempt: the loop goes on with its next attempt, which writes the
    register again. *)
Theorem ap_failure_propagation :
  forall (K : KinetisRegs) (H : Type) (T : Transport H) (s : Probe H),
    (failStops anyAccess (events (detect T s)) = true
     /\ (anyFailed anyAccess (events (detect T s)) = true ->
         result (detect T s) = false))
    /\ (failStops anyAccess (events (flashMassErase T s)) = true
        /\ (anyFailed anyAccess (events (flashMassErase T s)) = true ->
            result (flashMassErase T s) = false))
    /\ (failStops offHaltRace (events (resetHalt T s)) = true
        /\ (anyFailed offHaltRace (events (resetHalt T s)) = true ->
            result (resetHalt T s) = false))
    /\ (forall (n : nat) (d : option Z) (h : H),
           hw_apWrite T MEM_DRW 0xA05F0003 (hw s) = (false, h) ->
           let rest := haltLoop T n d (mkProbe h (logLevel s)) in
           haltLoop T (S n) d s =
             (result rest, final rest,
              (logLevel s, EvApWrite MEM_DRW 0xA05F0003 false)
              :: events rest))
    /\ (forall (n : nat) (d : option Z) (h h' : H),
           hw_apWrite T MEM_DRW 0xA05F0003 (hw s) = (true, h) ->
           hw_apRead T MEM_DRW h = (None, h') ->
           let rest := haltLoop T n d (mkProbe h' (logLevel s)) in
           haltLoop T (S n) d s =
             (result rest, final rest,
              (logLevel s, EvApWrite MEM_DRW 0xA05F0003 true)
              :: (logLevel s, EvApRead MEM_DRW None) :: events rest)).
Proof.
  intros K H T s.
  assert (Contra : forall b c : bool,
             (b = true -> c = false) -> c = true -> b = false).
  { intros [|] [|] I E; auto; discriminate (I eq_refl). }
  destruct (detect_strict T s) as [D1 D2].
  destruct (flashMassErase_strict T s) as [F1 F2].
  destruct (resetHalt_strict T s) as [R1 R2].
  split; [split; [exact D1 | now apply Contra]|].
  split; [split; [exact F1 | now apply Contra]|].
  split; [split; [exact R1 | now apply Contra]|].
  split.
  - intros n d h. apply haltLoop_write_failed.
  - intros n d h h'. apply haltLoop_read_failed.
Qed.

(** The claim C9 as it was stated fails on the halt race: a write that the
    transport fails is followed by a second write of the same register, and
    the operation succeeds. *)
Lemma resetHalt_reissues_failed_write :
  let out :=
    @resetHalt Sim.k20 _ Sim.scripted
      (Sim.probe (Sim.resetScript ++ [None]
                    ++ Sim.attempt Sim.haltedValue ++ [Sim.ack])) in
  In (LOG_NONE, EvApWrite MEM_DRW 0xA05F0003 false) (events out)
  /\ writesTo MEM_DRW (events out) = [0xA05F0003; 0xA05F0003]
  /\ result out = true
  /\ failStops anyAccess (events out) = false.
Proof.
  vm_compute. repeat split; auto 20.
Qed.

Lemma ap_failure_propagation_witness :
  let s := Sim.probe (None :: Sim.attempt Sim.haltedValue) in
  @haltLoop _ Sim.scripted 2 None s =
    ((0%nat, Some Sim.haltedValue), Sim.probe [],
     [(LOG_NORMAL, EvApWrite MEM_DRW 0xA05F0003 false);
      (LOG_NORMAL, EvApWrite MEM_DRW 0xA05F0003 true);
      (LOG_NORMAL, EvApRead MEM_DRW (Some Sim.haltedValue))]).
Proof.
  intros s.
  exact (proj1 (proj2 (proj2 (proj2
           (ap_failure_propagation Sim.k20 Sim.Script Sim.scripted s))))
           1%nat None (Sim.attempt Sim.haltedValue) eq_refl).
Defined.

(** ** The budget of the halt race *)

Section HaltBudget.

Context {K : KinetisRegs} {H : Type} (T : Transport H).

(** Every attempt writes the data register once, and the counter left by
    the loop is what remains of the budget. *)
Lemma haltLoop_attempts (n : nat) :
  forall (d : option Z) (s : Probe H),
    let out := haltLoop T n d s in
    (List.length (writesTo MEM_DRW (events out)) + fst (result out) = n)%nat.
Proof.
  induction n as [|n IH]; intros d s; cbn [haltLoop].
  - reflexivity.
  - unfold_ops.
    destruct (hw_apWrite T MEM_DRW 0xA05F0003 (hw s)) as [[|] h1];
      reduce_run;
      [destruct (hw_apRead T MEM_DRW h1) as [[v|] h2]; reduce_run;
       [destruct (halted v); reduce_run; [reflexivity|]|]|];
      match goal with
      | |- context [haltLoop T n ?d' ?s'] =>
          specialize (IH d' s');
          destruct (haltLoop T n d' s') as [[[k d''] s''] e]
      end;
      unfold result, events in *;
      cbn [fst snd writesTo APReg_eqb List.length] in *; lia.
Qed.

Lemma phase5_budget (s : Probe H) :
  let out := phase5 T s in
  (result out = true <->
   (List.length (writesTo MEM_DRW (events out)) < 200)%nat)
  /\ (result out = false ->
      List.length (writesTo MEM_DRW (events out)) = 200%nat).
Proof.
  unfold phase5. unfold_ops. reduce_run.
  pose proof (haltLoop_attempts 200 None (mkProbe (hw s) LOG_NONE)) as A.
  destruct (haltLoop T 200 None (mkProbe (hw s) LOG_NONE))
    as [[[k d] s1] e].
  unfold result, final, events in *. cbn [fst snd] in *.
  destruct (hw_initMemPort T (hw s1)) as [okc h2]. reduce_run.
  destruct k as [|k]; cbn [Nat.eqb negb]; reduce_run;
    rewrite !writesTo_app; cbn [writesTo]; rewrite !app_nil_r.
  - split; [split; [discriminate | lia] | lia].
  - split; [split; [lia | reflexivity] | discriminate].
Qed.

Lemma preHalt_no_race_writes (s : Probe H) :
  writesTo MEM_DRW (events (preHalt T s)) = [].
Proof.
  destruct (preHalt_disciplined T s) as (_ & F & _).
  induction F as [|[lv e] l [_ Hq] _ IH]; simpl; auto.
  destruct e as [|[] ? ?| | | |]; simpl in *; auto; discriminate.
Qed.

(** Once the race is entered, [resetHalt] succeeds exactly when the race
    took fewer than 200 attempts; a halt seen by the 200th attempt is
    reported as a failure. *)
Lemma resetHalt_budget (s : Probe H) :
  result (preHalt T s) = true ->
  let out := resetHalt T s in
  (result out = true <->
   (List.length (writesTo MEM_DRW (events out)) < 200)%nat)
  /\ (result out = false ->
      List.length (writesTo MEM_DRW (events out)) = 200%nat).
Proof.
  intros R out. subst out.
  rewrite resetHalt_preHalt, (andThen_true _ _ _ R), result_mk, events_mk,
    writesTo_app, preHalt_no_race_writes.
  apply phase5_budget.
Qed.

End HaltBudget.

(** C2, at the input where the code departs from it.  The target lets
    phases 1 to 4 through at once; the first 199 attempts of the halt race
    read back a running core and the 200th, still within the budget, reads
    back a value with the halted bit (bit 17) set.  [resetHalt] makes
    exactly 200 attempts, the last readback has the halted bit set, and
    yet it returns failure and logs the halt-failure diagnostic, with that
    halted value as the reported DHCSR. *)
Theorem resetHalt_halt_on_last_attempt :
  let out :=
    @resetHalt Sim.k20 _ Sim.scripted
      (Sim.probe (Sim.resetScript ++ Sim.running 199
                    ++ Sim.attempt Sim.haltedValue ++ [Sim.ack])) in
  List.length (readsOf MEM_DRW (events out)) = 200%nat
  /\ last (readsOf MEM_DRW (events out)) None = Some Sim.haltedValue
  /\ Z.testbit Sim.haltedValue 17 = true
  /\ @halted Sim.haltedValue = true
  /\ result out = false
  /\ errors (events out) = [haltFailure]
  /\ last (events out) (LOG_NONE, EvInitMemPort true) =
       (LOG_NORMAL, EvLog LOG_ERROR haltFailure [Some Sim.haltedValue]).
Proof.
  vm_compute. repeat split.
Qed.

(** The scenario of the specification: the halted bit reported on the 5th
    attempt gives success, with one cleanup. *)
Example resetHalt_fifth_attempt :
  let out :=
    @resetHalt Sim.k20 _ Sim.scripted
      (Sim.probe (Sim.resetScript ++ Sim.running 4
                    ++ Sim.attempt Sim.haltedValue ++ [Sim.ack])) in
  result out = true
  /\ List.length (writesTo MEM_DRW (events out)) = 5%nat
  /\ cleanups (events out) = 1%nat
  /\ logLevel (final out) = LOG_NORMAL.
Proof.
  vm_compute. repeat split.
Qed.

(** ** The theorems at work on the scripted target *)

Lemma resetHalt_cleanup_and_verbosity_witness :
  let s := Sim.probe (Sim.resetScript ++ Sim.running 200 ++ [Sim.ack]) in
  let out := @resetHalt Sim.k20 _ Sim.scripted s in
  result out = false
  /\ exists (race : list Entry) (okc : bool),
       events out =
         events (@preHalt Sim.k20 _ Sim.scripted s) ++ race ++
         [(LOG_NONE, EvInitMemPort okc);
          (LOG_NORMAL, verdict (result out) (lastReadback None race))]
       /\ Forall (fun x => fst x = LOG_NONE /\ onHaltRace (snd x) = true) race
       /\ cleanups (events out) = 1%nat.
Proof.
  intros s out. split; [vm_compute; reflexivity|].
  apply (proj2 (resetHalt_cleanup_and_verbosity Sim.k20 Sim.Script
                  Sim.scripted s)).
  vm_compute. reflexivity.
Defined.

Lemma resetHalt_phase_order_witness :
  let s :=
    Sim.probe [Sim.ack; Some 0x08; Sim.ack; Some 0x00; Sim.ack; Some 0x0A;
               None; Sim.ack; Sim.ack; Some Sim.haltedValue] in
  let out := @resetHalt Sim.k20 _ Sim.scripted s in
  result out = false
  /\ apWrites (events out) =
       [(REG_MDM_CONTROL, 0x10); (REG_MDM_CONTROL, 0x08);
        (REG_MDM_CONTROL, 0); (MEM_CSW, 0xA2000002)]
  /\ hw (final out) = [Sim.ack; Sim.ack; Some Sim.haltedValue].
Proof.
  intros s out.
  assert (E := proj1 (proj2 (proj2 (proj2
                 (resetHalt_phase_order Sim.k20 Sim.Script Sim.scripted s))))).
  cbv zeta in E. subst out. rewrite E; vm_compute; auto.
Defined.

Lemma peripheralInit_round_trips_witness :
  let s :=
    Sim.probe [Sim.ack; Sim.ack; Sim.ack; Some 0x31415927; Sim.ack;
               Some 0x76543211] in
  @peripheralInit Sim.k20 _ Sim.scripted s =
    (false, Sim.probe [],
     [(LOG_NORMAL, EvMemStore 0x40048038 0x00043F82 true);
      (LOG_NORMAL, EvMemStore 0x4004803C 0x03000001 true);
      (LOG_NORMAL, EvMemStore 0x20000000 0x31415927 true);
      (LOG_NORMAL, EvMemLoad 0x20000000 (Some 0x31415927));
      (LOG_NORMAL, EvMemStore 0x20000000 0x76543210 true);
      (LOG_NORMAL, EvMemLoad 0x20000000 (Some 0x76543211))]).
Proof.
  intros s.
  pose proof (peripheralInit_round_trips Sim.k20 Sim.Script Sim.scripted s)
    as P.
  cbv zeta in P. destruct P as (_ & _ & _ & _ & _ & _ & _ & R).
  destruct (R [Sim.ack; Sim.ack; Some 0x31415927; Sim.ack; Some 0x76543211]
              [Sim.ack; Some 0x31415927; Sim.ack; Some 0x76543211]
              eq_refl eq_refl) as (_ & _ & _ & R1).
  destruct (R1 [Some 0x31415927; Sim.ack; Some 0x76543211]
               [Sim.ack; Some 0x76543211] eq_refl eq_refl) as (_ & _ & R2).
  exact (R2 [Some 0x76543211] [] 0x76543211 eq_refl eq_refl).
Defined.

Lemma resetHalt_dhcsr_report_witness :
  let s :=
    Sim.probe (Sim.resetScript ++ repeat None 200 ++ [Sim.ack]) in
  let out := @resetHalt Sim.k20 _ Sim.scripted s in
  result out = false
  /\ In (LOG_NORMAL, EvLog LOG_ERROR haltFailure [None]) (events out).
Proof.
  intros s out.
  apply (proj1 (proj2 (proj2
           (resetHalt_dhcsr_report Sim.k20 Sim.Script Sim.scripted s))));
    vm_compute; reflexivity.
Defined.

(** * Further properties of the operations *)

(** ** Footprints *)

Section Footprints.

Context {K : KinetisRegs} {H : Type} (T : Transport H).

Lemma detect_level (s : Probe H) : logLevel (final (detect T s)) = logLevel s.
Proof.
  unfold detect. unfold_ops.
  destruct (hw_apRead T REG_MDM_IDR (hw s)) as [[idr|] h]; reduce_run;
    [destruct (idr =? 0x001C0000)|]; reflexivity.
Qed.

Lemma resetHalt_level (s : Probe H) :
  logLevel (final (resetHalt T s)) = logLevel s.
Proof.
  destruct (result (preHalt T s)) eqn:R.
  - now destruct (resetHalt_race T s R) as (race & okc & _ & _ & Lv & _).
  - rewrite (resetHalt_early T s R), final_mk.
    now destruct (preHalt_disciplined T s) as (Lv & _).
Qed.

(** The whole log of [peripheralInit] in one statement: only memory
    accesses, all at the caller's verbosity, at most six, ended by the
    first one that fails. *)
Lemma peripheralInit_log (s : Probe H) :
  let out := peripheralInit T s in
  logLevel (final out) = logLevel s
  /\ Forall (fun x => fst x = logLevel s /\ memEvent (snd x) = true)
            (events out)
  /\ (List.length (events out) <= 6)%nat
  /\ memFailStops (events out) = true.
Proof.
  unfold peripheralInit, memStoreAndVerify. unfold_ops. reduce_run.
  destruct (hw_memStore T REG_SIM_SCGC5 _ (hw s)) as [[|] h1]; reduce_run.
  2: unfold final, events; simpl; repeat split; auto; repeat constructor; lia.
  destruct (hw_memStore T REG_SIM_SCGC6 _ h1) as [[|] h2]; reduce_run.
  2: unfold final, events; simpl; repeat split; auto; repeat constructor; lia.
  destruct (hw_memStore T 0x20000000 0x31415927 h2) as [[|] h3]; reduce_run.
  2: unfold final, events; simpl; repeat split; auto; repeat constructor; lia.
  destruct (hw_memLoad T 0x20000000 h3) as [[v|] h4]; reduce_run.
  2: unfold final, events; simpl; repeat split; auto; repeat constructor; lia.
  destruct (v =? 0x31415927); reduce_run.
  2: unfold final, events; simpl; repeat split; auto; repeat constructor; lia.
  destruct (hw_memStore T 0x20000000 0x76543210 h4) as [[|] h5]; reduce_run.
  2: unfold final, events; simpl; repeat split; auto; repeat constructor; lia.
  destruct (hw_memLoad T 0x20000000 h5) as [[w|] h6]; reduce_run.
  2: unfold final, events; simpl; repeat split; auto; repeat constructor; lia.
  destruct (w =? 0x76543210); reduce_run;
    unfold final, events; simpl; repeat split; auto; repeat constructor; lia.
Qed.

End Footprints.

Section ResetHaltFootprint.

Context {K : KinetisRegs} {H : Type} (T : Transport H).

Lemma preHalt_resetHaltEvent (e : Event) :
  preHaltEvent e = true -> resetHaltEvent e = true.
Proof. destruct e; simpl; try discriminate; intros ->; reflexivity. Qed.

Lemma race_resetHaltEvent (e : Event) :
  onHaltRace e = true -> resetHaltEvent e = true.
Proof.
  destruct e; simpl; try discriminate; intros ->; apply orb_true_r.
Qed.

Lemma verdict_log (ok : bool) (d : option Z) :
  exists level msg args, verdict ok d = EvLog level msg args.
Proof. destruct ok; simpl; eauto. Qed.

Lemma resetHalt_events (s : Probe H) :
  Forall (fun x => resetHaltEvent (snd x) = true) (events (resetHalt T s)).
Proof.
  destruct (preHalt_disciplined T s) as (_ & Fp & _).
  assert (Fp' : Forall (fun x => resetHaltEvent (snd x) = true)
                       (events (preHalt T s))).
  { revert Fp. apply Forall_impl. intros x [_ Hx].
    now apply preHalt_resetHaltEvent. }
  destruct (result (preHalt T s)) eqn:R.
  - destruct (resetHalt_race T s R) as (race & okc & E & F & _).
    rewrite E. apply Forall_app. split; [exact Fp'|].
    apply Forall_app. split.
    + revert F. apply Forall_impl. intros x [_ Hx].
      now apply race_resetHaltEvent.
    + destruct (verdict_log (result (resetHalt T s)) (lastReadback None race))
        as (level & msg & args & ->).
      repeat constructor.
  - now rewrite (resetHalt_early T s R), events_mk.
Qed.

End ResetHaltFootprint.

Section EraseFootprint.

Context {K : KinetisRegs} {H : Type} (T : Transport H).

Lemma pollLog_erase (lvl : LogLevel) (a : APReg) (m e : Z) (ok : bool)
    (l : list Entry) :
  PollLog lvl a m e ok l ->
  (forall r, eraseEvent (EvApRead a r) = true) ->
  Forall (fun x => fst x = lvl /\ eraseEvent (snd x) = true) l.
Proof.
  intros L Q. pose proof (pollLog_stamps _ _ _ _ _ _ L) as St.
  pose proof (pollLog_reads _ _ _ _ _ _ L) as Rd.
  rewrite Forall_forall in *. intros x Hx. split; [now apply St|].
  destruct (Rd x Hx) as [r ->]. apply Q.
Qed.

(** The log of [flashMassErase]: reads of Status and Control, writes of
    Control and diagnostics, all at the caller's verbosity. *)
Lemma flashMassErase_log (s : Probe H) :
  let out := flashMassErase T s in
  logLevel (final out) = logLevel s
  /\ Forall (fun x => fst x = logLevel s /\ eraseEvent (snd x) = true)
            (events out).
Proof.
  unfold flashMassErase. unfold_ops.
  destruct (hw_apRead T REG_MDM_STATUS (hw s)) as [[status|] h]; reduce_run.
  2: unfold final, events; simpl; repeat split; auto; repeat constructor.
  destruct (flagSet status REG_MDM_STATUS_FLASH_READY); reduce_run.
  2: unfold final, events; simpl; repeat split; auto; repeat constructor.
  destruct (flagSet status REG_MDM_STATUS_FLASH_ERASE_ACK); reduce_run.
  1: unfold final, events; simpl; repeat split; auto; repeat constructor.
  destruct (flagSet status REG_MDM_STATUS_MASS_ERASE_ENABLE); reduce_run.
  2: unfold final, events; simpl; repeat split; auto; repeat constructor.
  run_write; reduce_run.
  2: unfold final, events; simpl; repeat split; auto; repeat constructor.
  run_poll. reduce_run.
  pose proof (pollLog_erase _ _ _ _ _ _ L (fun _ => eq_refl)) as F1.
  cbn [logLevel] in F1.
  destruct ok; reduce_run.
  2: { unfold final, events; cbn [fst snd]. split; [exact Lv|].
       repeat (apply Forall_cons; [split; reflexivity|]).
       apply Forall_app. split; [exact F1|]. rewrite Lv.
       repeat constructor. }
  run_poll. reduce_run.
  pose proof (pollLog_erase _ _ _ _ _ _ L0 (fun _ => eq_refl)) as F2.
  rewrite Lv in *.
  assert (G : forall (tl : list Entry) (s' : Probe H),
             logLevel s' = logLevel s ->
             Forall (fun x => fst x = logLevel s /\ eraseEvent (snd x) = true)
                    tl ->
             logLevel s' = logLevel s
             /\ Forall (fun x => fst x = logLevel s
                                 /\ eraseEvent (snd x) = true)
                  ((logLevel s, EvApRead REG_MDM_STATUS (Some status))
                   :: (logLevel s,
                       EvLog LOG_NORMAL
                         "FLASH: Beginning mass erase operation" [])
                   :: (logLevel s,
                       EvApWrite REG_MDM_CONTROL
                         (Z.lor REG_MDM_CONTROL_CORE_HOLD_RESET
                                REG_MDM_CONTROL_MASS_ERASE) true)
                   :: e ++ e0 ++ tl)).
  { intros tl s' Ls Ft. split; [exact Ls|].
    repeat (apply Forall_cons; [split; reflexivity|]).
    apply Forall_app. split; [exact F1|].
    apply Forall_app. split; [exact F2|exact Ft]. }
  destruct ok; reduce_run.
  2: { unfold final, events; cbn [fst snd]. apply G; [exact Lv0|].
       rewrite Lv0. repeat constructor. }
  destruct (hw_apRead T REG_MDM_STATUS (hw s1)) as [[st|] h3]; reduce_run.
  2: { unfold final, events; cbn [fst snd logLevel]. apply G; [exact Lv0|].
       rewrite Lv0. repeat constructor. }
  destruct (flagSet st REG_MDM_STATUS_FLASH_READY); reduce_run;
    unfold final, events; cbn [fst snd logLevel]; (apply G; [exact Lv0|]);
    rewrite Lv0; repeat constructor.
Qed.

End EraseFootprint.

(** ** Start-up *)

Section Startup.

Context {K : KinetisRegs} {H : Type} (T : Transport H).

Lemma startup_andThen (s : Probe H) :
  startup T s =
  andThen (detect T) (andThen (resetHalt T) (peripheralInit T)) s.
Proof. unfold startup, andThen. reflexivity. Qed.

Lemma resetHalt_no_idr (s : Probe H) :
  readsOf REG_MDM_IDR (events (resetHalt T s)) = [].
Proof.
  pose proof (resetHalt_events T s) as F.
  induction F as [|[lv e] l Hq _ IH]; simpl; auto.
  destruct e as [[] ?| | | | |]; simpl in *; auto; discriminate.
Qed.

Lemma peripheralInit_no_idr (s : Probe H) :
  readsOf REG_MDM_IDR (events (peripheralInit T s)) = [].
Proof.
  destruct (peripheralInit_log T s) as (_ & F & _).
  induction F as [|[lv e] l [_ Hq] _ IH]; simpl; auto.
  destruct e; simpl in *; auto; discriminate.
Qed.

Lemma detect_run (s : Probe H) :
  let idr := fst (hw_apRead T REG_MDM_IDR (hw s)) in
  readsOf REG_MDM_IDR (events (detect T s)) = [idr]
  /\ filter (fun x => isAccess (snd x)) (events (detect T s)) =
       [(logLevel s, EvApRead REG_MDM_IDR idr)]
  /\ (result (detect T s) = true <-> idr = Some 0x001C0000)
  /\ exists tl, events (detect T s) =
                 (logLevel s, EvApRead REG_MDM_IDR idr) :: tl.
Proof.
  unfold detect. unfold_ops.
  destruct (hw_apRead T REG_MDM_IDR (hw s)) as [[idr|] h]; reduce_run.
  - destruct (Z.eqb_spec idr 0x001C0000) as [->|N]; reduce_run;
      unfold result, events; simpl; repeat split; eauto; try discriminate.
    intros E. inversion E. contradiction.
  - unfold result, events; simpl. repeat split; eauto; discriminate.
Qed.

End Startup.

(** X1.  [startup] runs [detect], [resetHalt] and [peripheralInit] in this
    order, each from the state its predecessor left, and stops at the first
    that fails: its log is then the logs of the operations run so far and
    nothing of the next one.  It succeeds exactly when the three succeed. *)
Theorem startup_short_circuit :
  forall (K : KinetisRegs) (H : Type) (T : Transport H) (s : Probe H),
    let d := detect T s in
    let r := resetHalt T (final d) in
    let p := peripheralInit T (final r) in
    (result d = false -> startup T s = (false, final d, events d))
    /\ (result d = true -> result r = false ->
        startup T s = (false, final r, events d ++ events r))
    /\ (result d = true -> result r = true ->
        startup T s = (result p, final p, events d ++ events r ++ events p))
    /\ (result (startup T s) = true <->
        result d = true /\ result r = true /\ result p = true).
Proof.
  intros K H T s d r p. subst d r p.
  assert (A : result (detect T s) = false ->
              startup T s = (false, final (detect T s), events (detect T s))).
  { intros R. rewrite startup_andThen. now apply andThen_false. }
  assert (B : result (detect T s) = true ->
              result (resetHalt T (final (detect T s))) = false ->
              startup T s =
                (false, final (resetHalt T (final (detect T s))),
                 events (detect T s)
                   ++ events (resetHalt T (final (detect T s))))).
  { intros R1 R2. rewrite startup_andThen. next_phase.
    now apply andThen_false. }
  assert (C : result (detect T s) = true ->
              result (resetHalt T (final (detect T s))) = true ->
              startup T s =
                (result (peripheralInit T
                           (final (resetHalt T (final (detect T s))))),
                 final (peripheralInit T
                          (final (resetHalt T (final (detect T s))))),
                 events (detect T s)
                   ++ events (resetHalt T (final (detect T s)))
                   ++ events (peripheralInit T
                                (final (resetHalt T (final (detect T s))))))).
  { intros R1 R2. rewrite startup_andThen. next_phase.
    now apply andThen_true. }
  split; [exact A|]. split; [exact B|]. split; [exact C|]. split.
  - intros R.
    destruct (result (detect T s)) eqn:R1.
    + destruct (result (resetHalt T (final (detect T s)))) eqn:R2.
      * rewrite (C eq_refl eq_refl), result_mk in R. auto.
      * rewrite (B eq_refl eq_refl), result_mk in R. discriminate.
    + rewrite (A eq_refl), result_mk in R. discriminate.
  - intros (R1 & R2 & R3). now rewrite (C R1 R2), result_mk.
Qed.

(** X2.  [startup] reads the identity register exactly once, as its first
    access.  Unless that read returns 0x001C0000, it fails and this read is
    its only access of the target: no register is written, no reset is
    requested, no memory is touched.  A successful [startup] has read the
    signature. *)
Theorem startup_identity_gate :
  forall (K : KinetisRegs) (H : Type) (T : Transport H) (s : Probe H),
    let out := startup T s in
    let idr := fst (hw_apRead T REG_MDM_IDR (hw s)) in
    readsOf REG_MDM_IDR (events out) = [idr]
    /\ hd_error (bare (events out)) = Some (EvApRead REG_MDM_IDR idr)
    /\ (idr <> Some 0x001C0000 ->
        result out = false
        /\ filter (fun x => isAccess (snd x)) (events out) =
             [(logLevel s, EvApRead REG_MDM_IDR idr)])
    /\ (result out = true -> idr = Some 0x001C0000).
Proof.
  intros K H T s out idr. subst out idr.
  destruct (detect_run T s) as (Rd & Acc & Sig & tl & Hd).
  rewrite startup_andThen.
  destruct (result (detect T s)) eqn:R.
  - rewrite (andThen_true _ _ _ R), result_mk, events_mk.
    assert (I : fst (hw_apRead T REG_MDM_IDR (hw s)) = Some 0x001C0000)
      by now apply Sig.
    split; [|split; [|split]].
    + rewrite readsOf_app, Rd.
      destruct (result (resetHalt T (final (detect T s)))) eqn:R2.
      * rewrite (andThen_true _ _ _ R2), events_mk, readsOf_app,
          resetHalt_no_idr, peripheralInit_no_idr. reflexivity.
      * rewrite (andThen_false _ _ _ R2), events_mk, resetHalt_no_idr.
        reflexivity.
    + rewrite Hd. reflexivity.
    + intros N. contradiction.
    + intros _. exact I.
  - rewrite (andThen_false _ _ _ R), result_mk, events_mk.
    split; [exact Rd|]. split; [now rewrite Hd|]. split; [auto|discriminate].
Qed.

Lemma startup_identity_gate_witness :
  let out :=
    @startup Sim.k20 _ Sim.scripted
      (Sim.probe (Some 0x001C0001 :: Sim.resetScript)) in
  result out = false
  /\ filter (fun x => isAccess (snd x)) (events out) =
       [(LOG_NORMAL, EvApRead REG_MDM_IDR (Some 0x001C0001))].
Proof.
  apply (proj1 (proj2 (proj2
           (startup_identity_gate Sim.k20 Sim.Script Sim.scripted
              (Sim.probe (Some 0x001C0001 :: Sim.resetScript)))))).
  discriminate.
Defined.

Lemma startup_short_circuit_witness :
  let s :=
    Sim.probe (Some 0x001C0000 :: Sim.resetScript
                 ++ Sim.attempt Sim.haltedValue
                 ++ [Sim.ack; None; Sim.ack]) in
  let out := @startup Sim.k20 _ Sim.scripted s in
  result out = false
  /\ bare (skipn 13 (events out)) =
       [EvMemStore 0x40048038 0x00043F82 false]
  /\ hw (final out) = [Sim.ack].
Proof.
  intros s out.
  assert (E := proj1 (proj2 (proj2
                 (startup_short_circuit Sim.k20 Sim.Script Sim.scripted s)))).
  cbv zeta in E. subst out. rewrite E; vm_compute; auto.
Defined.

(** ** More on mass erase *)

Section EraseOutcome.

Context {K : KinetisRegs} {H : Type} (T : Transport H).

Lemma flagSet_true (status flag : Z) :
  flagSet status flag = true -> Z.land status flag <> 0.
Proof.
  unfold flagSet. intros E. apply negb_true_iff in E. now apply Z.eqb_neq.
Qed.

Lemma flagSet_false (status flag : Z) :
  flagSet status flag = false -> Z.land status flag = 0.
Proof.
  unfold flagSet. intros E. apply negb_false_iff in E. now apply Z.eqb_eq.
Qed.

Lemma flashMassErase_writes (s : Probe H) :
  apWrites (events (flashMassErase T s)) = []
  \/ apWrites (events (flashMassErase T s)) = [(REG_MDM_CONTROL, eraseRequest)].
Proof.
  destruct (hw_apRead T REG_MDM_STATUS (hw s)) as [[status|] h] eqn:E.
  - destruct (flagSet status REG_MDM_STATUS_FLASH_READY) eqn:R;
      [destruct (flagSet status REG_MDM_STATUS_FLASH_ERASE_ACK) eqn:A;
       [|destruct (flagSet status REG_MDM_STATUS_MASS_ERASE_ENABLE) eqn:En]|].
    2: { right. apply flashMassErase_proceed with (status := status) (h := h);
         auto using flagSet_true, flagSet_false. }
    all: left; unfold flashMassErase; unfold_ops; rewrite E; reduce_run;
      rewrite ?R, ?A, ?En; reflexivity.
  - left. unfold flashMassErase. unfold_ops. rewrite E. reflexivity.
Qed.

Lemma last_snoc {A : Type} (l : list A) (x d : A) : last (l ++ [x]) d = x.
Proof. apply last_last. Qed.

(** What a successful mass erase has seen and done. *)
Lemma flashMassErase_success_log (s : Probe H) :
  let out := flashMassErase T s in
  result out = true ->
  errors (events out) = []
  /\ apWrites (events out) = [(REG_MDM_CONTROL, eraseRequest)]
  /\ (exists status,
         hd_error (readsOf REG_MDM_STATUS (events out)) = Some (Some status)
         /\ Z.land status REG_MDM_STATUS_FLASH_READY <> 0
         /\ Z.land status REG_MDM_STATUS_FLASH_ERASE_ACK = 0
         /\ Z.land status REG_MDM_STATUS_MASS_ERASE_ENABLE <> 0)
  /\ (exists c,
         last (readsOf REG_MDM_CONTROL (events out)) None = Some c
         /\ Z.land c REG_MDM_CONTROL_MASS_ERASE = 0)
  /\ (exists st,
         last (readsOf REG_MDM_STATUS (events out)) None = Some st
         /\ Z.land st REG_MDM_STATUS_FLASH_READY <> 0).
Proof.
  unfold flashMassErase. unfold_ops.
  destruct (hw_apRead T REG_MDM_STATUS (hw s)) as [[status|] h]; reduce_run;
    [|discriminate].
  destruct (flagSet status REG_MDM_STATUS_FLASH_READY) eqn:R; reduce_run;
    [|discriminate].
  destruct (flagSet status REG_MDM_STATUS_FLASH_ERASE_ACK) eqn:A; reduce_run;
    [discriminate|].
  destruct (flagSet status REG_MDM_STATUS_MASS_ERASE_ENABLE) eqn:En;
    reduce_run; [|discriminate].
  run_write; reduce_run; [|discriminate].
  run_poll. reduce_run. destruct ok; reduce_run; [|discriminate].
  run_poll. reduce_run. destruct ok; reduce_run; [|discriminate].
  destruct (hw_apRead T REG_MDM_STATUS (hw s1)) as [[st|] h3]; reduce_run;
    [|discriminate].
  destruct (flagSet st REG_MDM_STATUS_FLASH_READY) eqn:R2; reduce_run;
    [|discriminate].
  intros _. unfold events.
  cbn [snd errors readsOf APReg_eqb hd_error apWrites].
  destruct (pollLog_hit _ _ _ _ _ _ L0 eq_refl) as (pre & c & Ec & Mc).
  rewrite !errors_app, !readsOf_app, !apWrites_app,
    (pollLog_errors _ _ _ _ _ _ L), (pollLog_errors _ _ _ _ _ _ L0),
    (pollLog_apWrites _ _ _ _ _ _ L), (pollLog_apWrites _ _ _ _ _ _ L0),
    (pollLog_readsOf_other _ _ _ _ _ _ L REG_MDM_CONTROL eq_refl),
    (pollLog_readsOf_other _ _ _ _ _ _ L0 REG_MDM_STATUS eq_refl).
  cbn [errors readsOf APReg_eqb app apWrites].
  split; [reflexivity|]. split; [reflexivity|]. split; [|split].
  - exists status. auto using flagSet_true, flagSet_false.
  - exists c. rewrite Ec, readsOf_app. cbn [readsOf APReg_eqb].
    rewrite app_nil_r, last_snoc. split; [reflexivity|].
    unfold pollMatch in Mc. rewrite Z.land_0_l in Mc. now apply Z.eqb_eq.
  - exists st. rewrite app_comm_cons, last_snoc.
    auto using flagSet_true.
Qed.

(** Failures and their diagnostics: at most one error is logged; a
    successful erase logs none; a failure without any error message comes
    from a single access that the transport failed. *)
Lemma flashMassErase_diagnosed_log (s : Probe H) :
  let out := flashMassErase T s in
  (List.length (errors (events out)) <= 1)%nat
  /\ (result out = true -> errors (events out) = [])
  /\ (result out = false -> errors (events out) = [] ->
      anyFailed anyAccess (events out) = true).
Proof.
  unfold flashMassErase. unfold_ops.
  destruct (hw_apRead T REG_MDM_STATUS (hw s)) as [[status|] h]; reduce_run.
  2: unfold result, events; simpl; repeat split; auto.
  destruct (flagSet status REG_MDM_STATUS_FLASH_READY); reduce_run.
  2: unfold result, events; simpl; repeat split; auto; discriminate.
  destruct (flagSet status REG_MDM_STATUS_FLASH_ERASE_ACK); reduce_run.
  1: unfold result, events; simpl; repeat split; auto; discriminate.
  destruct (flagSet status REG_MDM_STATUS_MASS_ERASE_ENABLE); reduce_run.
  2: unfold result, events; simpl; repeat split; auto; discriminate.
  run_write; reduce_run.
  2: unfold result, events; simpl; repeat split; auto.
  run_poll. reduce_run. pose proof (pollLog_errors _ _ _ _ _ _ L) as X1.
  destruct ok; reduce_run.
  2: { unfold result, events; cbn [fst snd errors].
       rewrite errors_app, X1. simpl. repeat split; auto; discriminate. }
  run_poll. reduce_run. pose proof (pollLog_errors _ _ _ _ _ _ L0) as X2.
  destruct ok; reduce_run.
  2: { unfold result, events; cbn [fst snd errors].
       rewrite !errors_app, X1, X2. simpl.
       repeat split; auto; discriminate. }
  destruct (hw_apRead T REG_MDM_STATUS (hw s1)) as [[st|] h3]; reduce_run.
  2: { unfold result, events; cbn [fst snd errors].
       rewrite !errors_app, X1, X2. simpl. repeat split; auto.
       intros _ _. unfold anyFailed. cbn [existsb].
       rewrite !existsb_app. cbn [existsb snd failedAccess anyAccess andb].
       now rewrite !orb_true_r. }
  destruct (flagSet st REG_MDM_STATUS_FLASH_READY); reduce_run;
    unfold result, events; cbn [fst snd errors];
    rewrite !errors_app, X1, X2; simpl; repeat split; auto; discriminate.
Qed.

End EraseOutcome.

(** ** The write script and the size of [resetHalt] *)

Section AndThenLog.

Context {H : Type} (p q : M H bool) (s : Probe H).

Lemma andThen_events :
  events (andThen p q s) =
  events (p s) ++ (if result (p s) then events (q (final (p s))) else []).
Proof.
  destruct (result (p s)) eqn:R.
  - now rewrite (andThen_true p q s R), events_mk.
  - now rewrite (andThen_false p q s R), events_mk, app_nil_r.
Qed.

Lemma andThen_result_eq :
  result (andThen p q s) =
  if result (p s) then result (q (final (p s))) else false.
Proof.
  destruct (result (p s)) eqn:R.
  - now rewrite (andThen_true p q s R), result_mk.
  - now rewrite (andThen_false p q s R), result_mk.
Qed.

End AndThenLog.

Section PhaseShapes.

Context {K : KinetisRegs} {H : Type} (T : Transport H).

Lemma phase1_shape (s : Probe H) :
  apWrites (events (phase1 T s)) =
    [(REG_MDM_CONTROL, REG_MDM_CONTROL_CORE_HOLD_RESET)]
  /\ (List.length (events (phase1 T s)) <= 1 + S resetRetries)%nat.
Proof.
  unfold phase1. unfold_ops. reduce_run.
  run_write; reduce_run; [|unfold events; simpl; split; [reflexivity|lia]].
  run_poll. reduce_run. unfold events. cbn [snd apWrites].
  rewrite app_nil_r, (pollLog_apWrites _ _ _ _ _ _ L). simpl. split; auto.
  lia.
Qed.

Lemma phase2_shape (s : Probe H) :
  let w := apWrites (events (phase2 T s)) in
  (w = [(REG_MDM_CONTROL, REG_MDM_CONTROL_SYS_RESET_REQ)]
   /\ result (phase2 T s) = false
   \/ w = [(REG_MDM_CONTROL, REG_MDM_CONTROL_SYS_RESET_REQ);
           (REG_MDM_CONTROL, 0)])
  /\ (List.length (events (phase2 T s)) <= 2 + S DEFAULT_RETRIES)%nat.
Proof.
  unfold phase2. unfold_ops. reduce_run.
  run_write; reduce_run;
    [|unfold events, result; simpl; split; [auto|lia]].
  run_poll. reduce_run. pose proof (pollLog_apWrites _ _ _ _ _ _ L) as W.
  destruct ok; reduce_run.
  - run_write; reduce_run; unfold events, result;
      cbn [fst snd apWrites List.length];
      rewrite apWrites_app, W, length_app; simpl; (split; [auto|lia]).
  - unfold events, result; cbn [fst snd apWrites List.length].
    rewrite app_nil_r, W. simpl. split; [auto|lia].
Qed.

Lemma phase3_shape (s : Probe H) :
  apWrites (events (phase3 T s)) = []
  /\ (List.length (events (phase3 T s)) <= S resetRetries)%nat.
Proof.
  unfold phase3. unfold_ops. run_poll. reduce_run. unfold events.
  cbn [snd]. rewrite app_nil_r, (pollLog_apWrites _ _ _ _ _ _ L). auto.
Qed.

Lemma phase4_shape (s : Probe H) :
  let w := apWrites (events (phase4 T s)) in
  (w = [(MEM_CSW, cswSetup)] /\ result (phase4 T s) = false
   \/ w = [(MEM_CSW, cswSetup); (MEM_TAR, REG_SCB_DHCSR)])
  /\ (List.length (events (phase4 T s)) <= 2)%nat.
Proof.
  unfold phase4, cswSetup. unfold_ops. reduce_run.
  run_write; reduce_run; [run_write; reduce_run|];
    unfold events, result; simpl; (split; [auto|lia]).
Qed.

Lemma haltLoop_shape (n : nat) :
  forall (d : option Z) (s : Probe H),
    let out := haltLoop T n d s in
    exists m : nat,
      (m + fst (result out) = n)%nat
      /\ apWrites (events out) = repeat (MEM_DRW, haltRequest) m
      /\ (List.length (events out) <= 2 * m)%nat
      /\ (List.length (readsOf MEM_DRW (events out)) <= m)%nat
      /\ (1 <= n -> 1 <= m)%nat.
Proof.
  induction n as [|n IH]; intros d s; cbn [haltLoop].
  - exists O. unfold ret, result, events. simpl. repeat split; auto; lia.
  - unfold_ops.
    destruct (hw_apWrite T MEM_DRW 0xA05F0003 (hw s)) as [[|] h1];
      reduce_run;
      [destruct (hw_apRead T MEM_DRW h1) as [[v|] h2]; reduce_run;
       [destruct (halted v); reduce_run;
        [exists 1%nat; unfold result, events; simpl;
         repeat split; auto; lia|]|]|];
      match goal with
      | |- context [haltLoop T n ?d' ?s'] =>
          destruct (IH d' s') as (m & Hm & W & Len & Rd & _);
          destruct (haltLoop T n d' s') as [[[k d''] s''] e]
      end;
      exists (S m); unfold result, events in *;
      cbn [fst snd apWrites readsOf APReg_eqb List.length repeat] in *;
      rewrite W; repeat split; auto; lia.
Qed.

Lemma phase5_shape (s : Probe H) :
  exists n : nat,
    (1 <= n <= 200)%nat
    /\ apWrites (events (phase5 T s)) = repeat (MEM_DRW, haltRequest) n
    /\ (List.length (events (phase5 T s)) <= 402)%nat
    /\ (List.length (readsOf MEM_DRW (events (phase5 T s))) <= n)%nat.
Proof.
  unfold phase5. unfold_ops. reduce_run.
  destruct (haltLoop_shape 200 None (mkProbe (hw s) LOG_NONE))
    as (m & Hm & W & Len & Rd & Pos).
  destruct (haltLoop T 200 None (mkProbe (hw s) LOG_NONE))
    as [[[k d] s1] e].
  unfold result, events in *. cbn [fst snd] in *.
  destruct (hw_initMemPort T (hw s1)) as [okc h2]. reduce_run.
  exists m.
  destruct (k =? 0)%nat; reduce_run;
    rewrite !apWrites_app, !readsOf_app, !length_app, W;
    cbn [apWrites readsOf List.length app]; rewrite !app_nil_r;
    repeat split; auto; lia.
Qed.

End PhaseShapes.

Section WriteScript.

Context {K : KinetisRegs} {H : Type} (T : Transport H).

Lemma resetHalt_unfold (s : Probe H) :
  let o1 := phase1 T s in
  let o2 := phase2 T (final o1) in
  let o3 := phase3 T (final o2) in
  let o4 := phase4 T (final o3) in
  let o5 := phase5 T (final o4) in
  events (resetHalt T s) =
    events o1 ++
    (if result o1 then
       events o2 ++
       (if result o2 then
          events o3 ++
          (if result o3 then
             events o4 ++ (if result o4 then events o5 else [])
           else [])
        else [])
     else [])
  /\ result (preHalt T s) =
       (if result o1 then
          if result o2 then if result o3 then result o4 else false else false
        else false).
Proof.
  intros o1 o2 o3 o4 o5. subst o1 o2 o3 o4 o5. split.
  - rewrite resetHalt_phases, andThen_events.
    destruct (result (phase1 T s)); [|reflexivity].
    rewrite andThen_events.
    destruct (result (phase2 T _)); [|reflexivity].
    rewrite andThen_events.
    destruct (result (phase3 T _)); [|reflexivity].
    rewrite andThen_events. reflexivity.
  - unfold preHalt. rewrite andThen_result_eq.
    destruct (result (phase1 T s)); [|reflexivity].
    rewrite andThen_result_eq.
    destruct (result (phase2 T _)); [|reflexivity].
    rewrite andThen_result_eq. reflexivity.
Qed.

Lemma filter_control_race (n : nat) :
  filter (fun p : APReg * Z => APReg_eqb (fst p) REG_MDM_CONTROL)
         (repeat (MEM_DRW, haltRequest) n) = [].
Proof. induction n; simpl; auto. Qed.

End WriteScript.

(** X3.  The writes of [resetHalt] follow one fixed script: hold-reset,
    reset-request and 0 to Control, the control word to CSW, the address of
    DHCSR to TAR, then the halt request 0xA05F0003 to DRW once per attempt
    of the race, at most 200 times.  On every path the writes issued are a
    non-empty initial part of that script; when the halt race is entered
    they are the whole script with at least one attempt, and Control has
    been written exactly these three values, the last one releasing the
    reset request. *)
Theorem resetHalt_write_script :
  forall (K : KinetisRegs) (H : Type) (T : Transport H) (s : Probe H),
    let out := resetHalt T s in
    exists (n : nat) (rest : list (APReg * Z)),
      (n <= 200)%nat
      /\ resetHaltWrites n = apWrites (events out) ++ rest
      /\ apWrites (events out) <> []
      /\ (result (preHalt T s) = true ->
          rest = [] /\ (1 <= n)%nat
          /\ writesTo REG_MDM_CONTROL (events out) = controlSequence).
Proof.
  intros K H T s out. subst out.
  destruct (resetHalt_unfold T s) as [E R]. cbv zeta in E, R.
  rewrite writesTo_apWrites, E, R. clear E R.
  destruct (phase1_shape T s) as [W1 _].
  destruct (phase2_shape T (final (phase1 T s))) as [W2 _].
  destruct (phase3_shape T (final (phase2 T (final (phase1 T s)))))
    as [W3 _].
  destruct (phase4_shape T
              (final (phase3 T (final (phase2 T (final (phase1 T s)))))))
    as [W4 _].
  destruct (phase5_shape T
              (final (phase4 T
                 (final (phase3 T (final (phase2 T (final (phase1 T s)))))))))
    as (n & Hn & W5 & _).
  cbv zeta in W2, W4.
  assert (Early : forall w rest : list (APReg * Z),
             resetHaltWrites 0 = w ++ rest -> w <> [] ->
             exists (n0 : nat) (rest0 : list (APReg * Z)),
               (n0 <= 200)%nat
               /\ resetHaltWrites n0 = w ++ rest0
               /\ w <> []
               /\ (false = true ->
                   rest0 = [] /\ (1 <= n0)%nat
                   /\ map snd
                        (filter
                           (fun p : APReg * Z =>
                              APReg_eqb (fst p) REG_MDM_CONTROL) w) =
                      controlSequence)).
  { intros w rest E N. exists O, rest. repeat split; auto; try lia;
      discriminate. }
  destruct (result (phase1 T s)); cbv beta iota.
  2: { rewrite app_nil_r, W1. eapply Early; [reflexivity|discriminate]. }
  destruct W2 as [[W2 R2]|W2].
  { rewrite R2. cbv beta iota. rewrite app_nil_r, apWrites_app, W1, W2.
    eapply Early; [reflexivity|discriminate]. }
  destruct (result (phase2 T _)); cbv beta iota.
  2: { rewrite app_nil_r, apWrites_app, W1, W2.
       eapply Early; [reflexivity|discriminate]. }
  destruct (result (phase3 T _)); cbv beta iota.
  2: { rewrite app_nil_r, !apWrites_app, W1, W2, W3.
       eapply Early; [reflexivity|discriminate]. }
  destruct W4 as [[W4 R4]|W4].
  { rewrite R4. cbv beta iota. rewrite app_nil_r, !apWrites_app, W1, W2, W3, W4.
    eapply Early; [reflexivity|discriminate]. }
  destruct (result (phase4 T _)); cbv beta iota.
  2: { rewrite app_nil_r, !apWrites_app, W1, W2, W3, W4.
       eapply Early; [reflexivity|discriminate]. }
  rewrite !apWrites_app, W1, W2, W3, W4, W5.
  exists n, []. unfold resetHaltWrites. cbn [app].
  repeat split; try lia; try discriminate.
  - now rewrite app_nil_r.
  - cbn [filter fst APReg_eqb map snd]. rewrite filter_control_race.
    reflexivity.
Qed.

Lemma resetHalt_write_script_witness :
  let s :=
    Sim.probe (Sim.resetScript ++ Sim.running 2
                 ++ Sim.attempt Sim.haltedValue ++ [Sim.ack]) in
  exists (n : nat) (rest : list (APReg * Z)),
    (n <= 200)%nat
    /\ @resetHaltWrites Sim.k20 n =
         apWrites (events (@resetHalt Sim.k20 _ Sim.scripted s)) ++ rest
    /\ rest = [] /\ (1 <= n)%nat.
Proof.
  intros s.
  destruct (resetHalt_write_script Sim.k20 Sim.Script Sim.scripted s)
    as (n & rest & Hn & E & _ & P).
  exists n, rest. destruct (P eq_refl) as (R & Pos & _). auto.
Defined.

(** ** Success, diagnostics and size of [resetHalt] *)

Section ResetHaltOutcome.

Context {K : KinetisRegs} {H : Type} (T : Transport H).

Lemma halted_bit (v : Z) : halted v = Z.testbit v 17.
Proof.
  unfold halted. change (Z.shiftl 1 17) with (2 ^ 17).
  destruct (Z.testbit v 17) eqn:B.
  - apply negb_true_iff, Z.eqb_neq. intros E.
    apply (f_equal (fun z => Z.testbit z 17)) in E.
    rewrite Z.land_spec, B, Z.pow2_bits_true, Z.bits_0 in E by lia.
    discriminate.
  - apply negb_false_iff, Z.eqb_eq. apply Z.bits_inj'. intros n Hn.
    rewrite Z.land_spec, Z.bits_0, Z.pow2_bits_eqb by lia.
    destruct (Z.eqb_spec 17 n) as [<-|N]; [now rewrite B|apply andb_false_r].
Qed.

(** A loop left with retries to spare was left by [break]: its last event
    is a readback with the halted bit set. *)
Lemma haltLoop_success (n : nat) :
  forall (d : option Z) (s : Probe H),
    let out := haltLoop T n d s in
    fst (result out) <> O ->
    exists pre v,
      events out = pre ++ [(logLevel s, EvApRead MEM_DRW (Some v))]
      /\ halted v = true.
Proof.
  induction n as [|n IH]; intros d s; cbn [haltLoop].
  - intros N. now contradiction N.
  - unfold_ops.
    destruct (hw_apWrite T MEM_DRW 0xA05F0003 (hw s)) as [[|] h1];
      reduce_run;
      [destruct (hw_apRead T MEM_DRW h1) as [[v|] h2]; reduce_run;
       [destruct (halted v) eqn:Hv; reduce_run;
        [intros _;
         exists [(logLevel s, EvApWrite MEM_DRW 0xA05F0003 true)], v;
         unfold events; simpl; auto|]|]|];
      match goal with
      | |- context [haltLoop T n ?d' ?s'] =>
          specialize (IH d' s');
          destruct (haltLoop T n d' s') as [[[k d''] s''] e]
      end;
      unfold result, events in *; cbn [fst snd logLevel] in *;
      intros N; destruct (IH N) as (pre & u & -> & Hu);
      first
        [ eexists (_ :: _ :: pre), u; split; [reflexivity|exact Hu]
        | eexists (_ :: pre), u; split; [reflexivity|exact Hu] ].
Qed.

Lemma phase5_success (s : Probe H) :
  result (phase5 T s) = true ->
  exists pre v okc,
    events (phase5 T s) =
      pre ++ [(LOG_NONE, EvApRead MEM_DRW (Some v));
              (LOG_NONE, EvInitMemPort okc);
              (logLevel s,
               EvLog LOG_NORMAL
                 "CPU reset & halt successful. Now in debug mode." [])]
    /\ Z.testbit v 17 = true.
Proof.
  unfold phase5. unfold_ops. reduce_run.
  pose proof (haltLoop_success 200 None (mkProbe (hw s) LOG_NONE)) as S5.
  pose proof (haltLoop_log T 200 None (mkProbe (hw s) LOG_NONE))
    as (Lv & _).
  destruct (haltLoop T 200 None (mkProbe (hw s) LOG_NONE))
    as [[[k d] s1] e].
  unfold result, final, events in *. cbn [fst snd logLevel] in *.
  destruct (hw_initMemPort T (hw s1)) as [okc h2]. reduce_run.
  destruct k as [|k]; cbn [Nat.eqb negb]; reduce_run; [discriminate|].
  intros _. destruct S5 as (pre & v & -> & Hv); [discriminate|].
  exists pre, v, okc. rewrite Lv, <- halted_bit. split; [|exact Hv].
  rewrite <- !app_assoc. reflexivity.
Qed.

Lemma class_errors (Q : Event -> bool) (P : LogLevel -> Prop)
    (l : list Entry) :
  (forall level msg args, Q (EvLog level msg args) = false) ->
  Forall (fun x => P (fst x) /\ Q (snd x) = true) l ->
  errors l = [].
Proof.
  intros N F. induction F as [|[lv e] l' [_ Hq] _ IH]; simpl; auto.
  destruct e; auto. simpl in Hq. rewrite N in Hq. discriminate.
Qed.

Lemma preHalt_errors (s : Probe H) : errors (events (preHalt T s)) = [].
Proof.
  destruct (preHalt_disciplined T s) as (_ & F & _). revert F.
  apply (class_errors preHaltEvent (fun lv => lv = logLevel s)).
  reflexivity.
Qed.

Lemma race_errors (race : list Entry) :
  Forall (fun x => fst x = LOG_NONE /\ onHaltRace (snd x) = true) race ->
  errors race = [].
Proof.
  apply (class_errors onHaltRace (fun lv => lv = LOG_NONE)). reflexivity.
Qed.

Lemma resetHalt_errors (s : Probe H) :
  errors (events (resetHalt T s)) =
  if result (preHalt T s) && negb (result (resetHalt T s))
  then [haltFailure] else [].
Proof.
  destruct (result (preHalt T s)) eqn:R.
  - destruct (resetHalt_race T s R) as (race & okc & E & F & _).
    rewrite E at 1. rewrite !errors_app, preHalt_errors, (race_errors _ F).
    destruct (result (resetHalt T s)); reflexivity.
  - rewrite (resetHalt_early T s R), events_mk, preHalt_errors. reflexivity.
Qed.

End ResetHaltOutcome.

(** X4.  A successful [resetHalt] ends in exactly this way: a readback of
    DHCSR whose halted bit (bit 17) is set, issued at the suppressed
    verbosity; the re-initialisation of the memory port; the success
    message at the caller's verbosity.  No error is logged. *)
Theorem resetHalt_success_trace :
  forall (K : KinetisRegs) (H : Type) (T : Transport H) (s : Probe H),
    let out := resetHalt T s in
    result out = true ->
    (exists pre v okc,
        events out =
          pre ++ [(LOG_NONE, EvApRead MEM_DRW (Some v));
                  (LOG_NONE, EvInitMemPort okc);
                  (logLevel s,
                   EvLog LOG_NORMAL
                     "CPU reset & halt successful. Now in debug mode." [])]
        /\ Z.testbit v 17 = true)
    /\ errors (events out) = [].
Proof.
  intros K H T s out R. subst out. split.
  - rewrite resetHalt_preHalt in R. apply andThen_result in R as [R1 R5].
    destruct (phase5_success T _ R5) as (pre & v & okc & E & B).
    destruct (preHalt_disciplined T s) as (Lv & _). rewrite Lv in E.
    rewrite resetHalt_preHalt, (andThen_true _ _ _ R1), events_mk, E.
    exists (events (preHalt T s) ++ pre), v, okc.
    split; [now rewrite <- app_assoc | exact B].
  - rewrite resetHalt_errors, R. now rewrite andb_false_r.
Qed.

Lemma resetHalt_success_trace_witness :
  let out :=
    @resetHalt Sim.k20 _ Sim.scripted
      (Sim.probe (Sim.resetScript ++ Sim.running 3
                    ++ Sim.attempt Sim.haltedValue ++ [Sim.ack])) in
  errors (events out) = [].
Proof.
  apply (resetHalt_success_trace Sim.k20 Sim.Script Sim.scripted
           (Sim.probe (Sim.resetScript ++ Sim.running 3
                         ++ Sim.attempt Sim.haltedValue ++ [Sim.ack]))).
  vm_compute. reflexivity.
Defined.

(** X5.  The only error [resetHalt] logs itself is the halt-failure
    diagnostic, and it logs it exactly when the halt race was entered and
    lost.  A call that fails before the race (a write or a poll of phases
    1 to 4 failed) returns failure without any diagnostic of its own. *)
Theorem resetHalt_diagnostics :
  forall (K : KinetisRegs) (H : Type) (T : Transport H) (s : Probe H),
    let out := resetHalt T s in
    errors (events out) =
      (if result (preHalt T s) && negb (result out) then [haltFailure]
       else [])
    /\ (result (preHalt T s) = false ->
        result out = false /\ errors (events out) = []).
Proof.
  intros K H T s out. subst out. split; [apply resetHalt_errors|].
  intros R. rewrite resetHalt_errors, R.
  rewrite (resetHalt_early T s R), result_mk. auto.
Qed.

(** X6.  [resetHalt] is a bounded busy-wait: whatever the target does, a
    call issues at most 4410 + DEFAULT_RETRIES accesses and diagnostics. *)
Theorem resetHalt_bounded :
  forall (K : KinetisRegs) (H : Type) (T : Transport H) (s : Probe H),
    Z.of_nat (List.length (events (resetHalt T s))) <=
    4410 + Z.of_nat DEFAULT_RETRIES.
Proof.
  intros K H T s.
  destruct (resetHalt_unfold T s) as [E _]. cbv zeta in E. rewrite E.
  clear E.
  destruct (phase1_shape T s) as [_ L1].
  destruct (phase2_shape T (final (phase1 T s))) as [_ L2].
  destruct (phase3_shape T (final (phase2 T (final (phase1 T s)))))
    as [_ L3].
  destruct (phase4_shape T
              (final (phase3 T (final (phase2 T (final (phase1 T s)))))))
    as [_ L4].
  destruct (phase5_shape T
              (final (phase4 T
                 (final (phase3 T (final (phase2 T (final (phase1 T s)))))))))
    as (n & _ & _ & L5 & _).
  assert (R : Z.of_nat resetRetries = 2000) by reflexivity.
  revert R L1 L3. generalize resetRetries. intros r R L1 L3.
  assert (B : (List.length
                 (events (phase1 T s) ++
                  (if result (phase1 T s) then
                     events (phase2 T (final (phase1 T s))) ++
                     (if result (phase2 T (final (phase1 T s))) then
                        events (phase3 T
                                  (final (phase2 T (final (phase1 T s))))) ++
                        (if result
                              (phase3 T
                                 (final (phase2 T (final (phase1 T s)))))
                         then
                           events
                             (phase4 T
                                (final
                                   (phase3 T
                                      (final
                                         (phase2 T (final (phase1 T s))))))) ++
                           (if result
                                 (phase4 T
                                    (final
                                       (phase3 T
                                          (final
                                             (phase2 T
                                                (final (phase1 T s)))))))
                            then
                              events
                                (phase5 T
                                   (final
                                      (phase4 T
                                         (final
                                            (phase3 T
                                               (final
                                                  (phase2 T
                                                     (final (phase1 T s)))))))))
                            else [])
                         else [])
                      else [])
                   else []))
               <= 2 * S r + S DEFAULT_RETRIES + 407)%nat).
  { destruct (result (phase1 T s)); [|rewrite app_nil_r; lia].
    destruct (result (phase2 T _));
      [|rewrite app_nil_r, length_app; lia].
    destruct (result (phase3 T _));
      [|rewrite app_nil_r, !length_app; lia].
    destruct (result (phase4 T _));
      [|rewrite app_nil_r, !length_app; lia].
    rewrite !length_app. lia. }
  lia.
Qed.

(** X7.  [flashMassErase] is a bounded busy-wait as well: a call issues at
    most 10007 + DEFAULT_RETRIES accesses and diagnostics. *)
Theorem flashMassErase_bounded :
  forall (K : KinetisRegs) (H : Type) (T : Transport H) (s : Probe H),
    Z.of_nat (List.length (events (flashMassErase T s))) <=
    10007 + Z.of_nat DEFAULT_RETRIES.
Proof.
  intros K H T s. unfold flashMassErase. unfold_ops.
  set (big := 10000%nat).
  assert (B : Z.of_nat big = 10000) by reflexivity. clearbody big.
  destruct (hw_apRead T REG_MDM_STATUS (hw s)) as [[status|] h]; reduce_run;
    [|unfold events; cbn [snd List.length]; lia].
  destruct (flagSet status REG_MDM_STATUS_FLASH_READY); reduce_run;
    [|unfold events; cbn [snd List.length]; lia].
  destruct (flagSet status REG_MDM_STATUS_FLASH_ERASE_ACK); reduce_run;
    [unfold events; cbn [snd List.length]; lia|].
  destruct (flagSet status REG_MDM_STATUS_MASS_ERASE_ENABLE); reduce_run;
    [|unfold events; cbn [snd List.length]; lia].
  run_write; reduce_run; [|unfold events; cbn [snd List.length]; lia].
  run_poll. reduce_run. destruct ok; reduce_run;
    [|unfold events; cbn [snd List.length]; rewrite length_app; cbn [List.length]; lia].
  run_poll. reduce_run. destruct ok; reduce_run;
    [|unfold events; cbn [snd List.length]; rewrite !length_app; cbn [List.length]; lia].
  destruct (hw_apRead T REG_MDM_STATUS (hw s1)) as [[st|] h3]; reduce_run;
    [|unfold events; cbn [snd List.length]; rewrite !length_app; cbn [List.length]; lia].
  destruct (flagSet st REG_MDM_STATUS_FLASH_READY); reduce_run;
    unfold events; cbn [snd List.length]; rewrite !length_app; cbn [List.length]; lia.
Qed.

(** X8.  [flashMassErase] touches the target only through reads of Status
    and Control and through Control writes: it never uses the memory port
    or memory-mapped accesses.  It leaves the verbosity as it found it, and
    on every path it writes either nothing or, once, the erase request
    (hold-reset together with mass-erase) to Control; in particular it
    never releases the hold-reset it asked for. *)
Theorem flashMassErase_footprint :
  forall (K : KinetisRegs) (H : Type) (T : Transport H) (s : Probe H),
    let out := flashMassErase T s in
    logLevel (final out) = logLevel s
    /\ Forall (fun x => fst x = logLevel s /\ eraseEvent (snd x) = true)
              (events out)
    /\ (apWrites (events out) = []
        \/ apWrites (events out) = [(REG_MDM_CONTROL, eraseRequest)]).
Proof.
  intros K H T s out. subst out.
  destruct (flashMassErase_log T s) as [Lv F].
  split; [exact Lv|]. split; [exact F|]. apply flashMassErase_writes.
Qed.

(** X9.  A successful [flashMassErase] has logged no error and has seen,
    in this order: at entry a Status with flash-ready set, erase-acknowledge
    clear and mass-erase-enable set; as its last read of Control a value
    with the mass-erase bit clear; as its last read of Status a value with
    flash-ready set.  Its only write is the erase request. *)
Theorem flashMassErase_success :
  forall (K : KinetisRegs) (H : Type) (T : Transport H) (s : Probe H),
    let out := flashMassErase T s in
    result out = true ->
    errors (events out) = []
    /\ apWrites (events out) = [(REG_MDM_CONTROL, eraseRequest)]
    /\ (exists status,
           hd_error (readsOf REG_MDM_STATUS (events out)) = Some (Some status)
           /\ Z.land status REG_MDM_STATUS_FLASH_READY <> 0
           /\ Z.land status REG_MDM_STATUS_FLASH_ERASE_ACK = 0
           /\ Z.land status REG_MDM_STATUS_MASS_ERASE_ENABLE <> 0)
    /\ (exists c,
           last (readsOf REG_MDM_CONTROL (events out)) None = Some c
           /\ Z.land c REG_MDM_CONTROL_MASS_ERASE = 0)
    /\ (exists st,
           last (readsOf REG_MDM_STATUS (events out)) None = Some st
           /\ Z.land st REG_MDM_STATUS_FLASH_READY <> 0).
Proof.
  intros K H T s out R. subst out.
  now apply flashMassErase_success_log.
Qed.

Lemma flashMassErase_success_witness :
  let out :=
    @flashMassErase Sim.k20 _ Sim.scripted
      (Sim.probe [Some 0x22; Sim.ack; Some 0x22; Some 0x23; Some 0x01;
                  Some 0x00; Some 0x22]) in
  errors (events out) = []
  /\ apWrites (events out) = [(REG_MDM_CONTROL, 0x11)].
Proof.
  intros out.
  destruct (flashMassErase_success Sim.k20 Sim.Script Sim.scripted
              (Sim.probe [Some 0x22; Sim.ack; Some 0x22; Some 0x23;
                          Some 0x01; Some 0x00; Some 0x22]) eq_refl)
    as (E & W & _).
  split; [exact E | exact W].
Defined.

(** X10.  [flashMassErase] logs at most one error per call and none when
    it succeeds.  When it fails without logging any error, one of its
    single register accesses (the first Status read, the Control write or
    the final Status read) was failed by the transport: every refusal and
    every timeout carries a diagnostic. *)
Theorem flashMassErase_diagnosed :
  forall (K : KinetisRegs) (H : Type) (T : Transport H) (s : Probe H),
    let out := flashMassErase T s in
    (List.length (errors (events out)) <= 1)%nat
    /\ (result out = true -> errors (events out) = [])
    /\ (result out = false -> errors (events out) = [] ->
        anyFailed anyAccess (events out) = true).
Proof.
  intros K H T s. apply flashMassErase_diagnosed_log.
Qed.

(** X11.  [peripheralInit] touches the target only through memory-mapped
    stores and loads, at most six of them, all at the caller's verbosity,
    which it leaves unchanged; it logs nothing itself, and a store or load
    that the transport fails is the last thing it does. *)
Theorem peripheralInit_footprint :
  forall (K : KinetisRegs) (H : Type) (T : Transport H) (s : Probe H),
    let out := peripheralInit T s in
    logLevel (final out) = logLevel s
    /\ Forall (fun x => fst x = logLevel s /\ memEvent (snd x) = true)
              (events out)
    /\ (List.length (events out) <= 6)%nat
    /\ memFailStops (events out) = true.
Proof.
  intros K H T s. apply peripheralInit_log.
Qed.

Lemma resetHalt_budget_witness :
  let out :=
    @resetHalt Sim.k20 _ Sim.scripted
      (Sim.probe (Sim.resetScript ++ Sim.running 200 ++ [Sim.ack])) in
  result out = false
  /\ List.length (writesTo MEM_DRW (events out)) = 200%nat.
Proof.
  intros out.
  assert (R : result out = false) by (vm_compute; reflexivity).
  split; [exact R|].
  exact (proj2 (@resetHalt_budget Sim.k20 _ Sim.scripted
                  (Sim.probe (Sim.resetScript ++ Sim.running 200 ++ [Sim.ack]))
                  eq_refl) R).
Defined.

(** ** The attempts of the halt race and the Status values seen *)

Section RaceAttempts.

Context {K : KinetisRegs} {H : Type} (T : Transport H).

Lemma class_readsOf (Q : Event -> bool) (P : LogLevel -> Prop) (a : APReg)
    (l : list Entry) :
  (forall r, Q (EvApRead a r) = false) ->
  Forall (fun x => P (fst x) /\ Q (snd x) = true) l ->
  readsOf a l = [].
Proof.
  intros N F. induction F as [|[lv e] l' [_ Hq] _ IH]; simpl; auto.
  destruct e; auto. destruct (APReg_eqb addr a) eqn:E; auto.
  assert (addr = a) by (destruct addr, a; simpl in E; congruence).
  subst. simpl in Hq. rewrite N in Hq. discriminate.
Qed.

Lemma race_writes_length (n : nat) :
  List.length
    (map snd
       (filter (fun p : APReg * Z => APReg_eqb (fst p) MEM_DRW)
          (repeat (MEM_DRW, haltRequest) n))) = n.
Proof. induction n; simpl; auto. Qed.

Lemma resetHalt_race_accesses (s : Probe H) :
  result (preHalt T s) = true ->
  let n := List.length (writesTo MEM_DRW (events (resetHalt T s))) in
  (1 <= n <= 200)%nat
  /\ (List.length (readsOf MEM_DRW (events (resetHalt T s))) <= n)%nat
  /\ Forall (fun v => v = haltRequest)
            (writesTo MEM_DRW (events (resetHalt T s))).
Proof.
  intros R n. subst n.
  destruct (phase5_shape T (final (preHalt T s))) as (n & Hn & W & _ & Rd).
  destruct (preHalt_disciplined T s) as (_ & F & _).
  rewrite resetHalt_preHalt, (andThen_true _ _ _ R), events_mk,
    writesTo_app, readsOf_app, preHalt_no_race_writes,
    (class_readsOf preHaltEvent (fun lv => lv = logLevel s) MEM_DRW _
       (fun _ => eq_refl) F).
  cbn [app]. rewrite writesTo_apWrites, W, race_writes_length.
  repeat split; try lia.
  clear. induction n; simpl; auto.
Qed.

Lemma poll_hit_reads (a : APReg) (m e : Z) (r : nat) (s s' : Probe H)
    (v0 : option Z) (l : list Entry) :
  apReadPoll T a m e r s = (true, v0, s', l) ->
  exists rs v, readsOf a l = rs ++ [Some v] /\ pollMatch m e v = true.
Proof.
  intros E. apply apReadPoll_log in E as (L & _).
  destruct (pollLog_hit _ _ _ _ _ _ L eq_refl) as (pre & v & -> & Hv).
  exists (readsOf a pre), v. split; [|exact Hv].
  rewrite readsOf_app. simpl.
  now replace (APReg_eqb a a) with true by (destruct a; reflexivity).
Qed.

Lemma phase1_hit (s : Probe H) :
  result (phase1 T s) = true ->
  exists rs v,
    readsOf REG_MDM_STATUS (events (phase1 T s)) = rs ++ [Some v]
    /\ pollMatch REG_MDM_STATUS_SYS_NRESET (u32 (-1)) v = true.
Proof.
  unfold phase1. unfold_ops. reduce_run.
  run_write; reduce_run; [|discriminate].
  destruct (apReadPoll T REG_MDM_STATUS _ _ _ _) as [[[ok v0] s'] l] eqn:E.
  reduce_run. unfold result, events. cbn [fst snd readsOf]. intros ->.
  rewrite app_nil_r. eapply poll_hit_reads. exact E.
Qed.

Lemma phase2_hit (s : Probe H) :
  result (phase2 T s) = true ->
  exists rs v,
    readsOf REG_MDM_STATUS (events (phase2 T s)) = rs ++ [Some v]
    /\ pollMatch REG_MDM_STATUS_SYS_NRESET 0 v = true.
Proof.
  unfold phase2. unfold_ops. reduce_run.
  run_write; reduce_run; [|discriminate].
  destruct (apReadPoll T REG_MDM_STATUS _ _ _ _) as [[[[|] v0] s'] l] eqn:E;
    reduce_run; [|discriminate].
  destruct (hw_apWrite T REG_MDM_CONTROL 0 (hw s')) as [ok h2]. reduce_run.
  unfold result, events. cbn [fst snd readsOf]. intros _.
  rewrite readsOf_app. cbn [readsOf]. rewrite app_nil_r.
  eapply poll_hit_reads. exact E.
Qed.

Lemma phase3_hit (s : Probe H) :
  result (phase3 T s) = true ->
  exists rs v,
    readsOf REG_MDM_STATUS (events (phase3 T s)) = rs ++ [Some v]
    /\ pollMatch safeMask safeExpected v = true.
Proof.
  unfold phase3. unfold_ops.
  destruct (apReadPoll T REG_MDM_STATUS _ _ _ _) as [[[ok v0] s'] l] eqn:E.
  reduce_run. unfold result, events. cbn [fst snd]. intros ->.
  rewrite app_nil_r. eapply poll_hit_reads. exact E.
Qed.

Lemma phase4_no_status (s : Probe H) :
  readsOf REG_MDM_STATUS (events (phase4 T s)) = [].
Proof.
  destruct (phase4_disciplined T s) as (_ & F & _).
  unfold phase4. unfold_ops. reduce_run.
  run_write; reduce_run; [run_write; reduce_run|]; reflexivity.
Qed.

Lemma phase5_no_status (s : Probe H) :
  readsOf REG_MDM_STATUS (events (phase5 T s)) = [].
Proof.
  destruct (phase5_log T s) as (race & okc & E & F & _).
  rewrite E, readsOf_app,
    (class_readsOf onHaltRace (fun lv => lv = LOG_NONE) REG_MDM_STATUS _
       (fun _ => eq_refl) F).
  generalize (result (phase5 T s)). intros [|]; reflexivity.
Qed.

End RaceAttempts.

(** X12.  Once the halt race is entered, [resetHalt] makes between 1 and
    200 attempts, each of which writes the halt request 0xA05F0003 to DRW,
    and in total it reads DHCSR back no more often than it writes.  It
    succeeds exactly when it needed fewer than 200 attempts; a failing call
    has made all 200. *)
Theorem resetHalt_attempts :
  forall (K : KinetisRegs) (H : Type) (T : Transport H) (s : Probe H),
    result (preHalt T s) = true ->
    let out := resetHalt T s in
    let n := List.length (writesTo MEM_DRW (events out)) in
    (1 <= n <= 200)%nat
    /\ (List.length (readsOf MEM_DRW (events out)) <= n)%nat
    /\ Forall (fun v => v = haltRequest) (writesTo MEM_DRW (events out))
    /\ (result out = true <-> (n < 200)%nat)
    /\ (result out = false -> n = 200%nat).
Proof.
  intros K H T s R out n. subst out n.
  destruct (resetHalt_race_accesses T s R) as (A & B & C).
  destruct (resetHalt_budget T s R) as (D & E).
  repeat split; auto; try apply D; lia.
Qed.

Lemma resetHalt_attempts_witness :
  let out :=
    @resetHalt Sim.k20 _ Sim.scripted
      (Sim.probe (Sim.resetScript ++ Sim.running 6
                    ++ Sim.attempt Sim.haltedValue ++ [Sim.ack])) in
  (1 <= List.length (writesTo MEM_DRW (events out)) <= 200)%nat.
Proof.
  apply (resetHalt_attempts Sim.k20 Sim.Script Sim.scripted
           (Sim.probe (Sim.resetScript ++ Sim.running 6
                         ++ Sim.attempt Sim.haltedValue ++ [Sim.ack]))
           eq_refl).
Defined.

(** X13.  A [resetHalt] that reaches the halt race has read Status in this
    order: possibly some values, then one with the reset-line bit set;
    possibly some more, then one with the reset-line bit clear; possibly
    some more, then one in the safe state (reset-line and flash-ready set,
    security clear).  These are all its reads of Status. *)
Theorem resetHalt_status_sequence :
  forall (K : KinetisRegs) (H : Type) (T : Transport H) (s : Probe H),
    0 <= REG_MDM_STATUS_SYS_NRESET < 2 ^ 32 ->
    Z.land REG_MDM_STATUS_SYS_SECURITY
      (Z.lor REG_MDM_STATUS_SYS_NRESET REG_MDM_STATUS_FLASH_READY) = 0 ->
    result (preHalt T s) = true ->
    exists r1 v1 r2 v2 r3 v3,
      readsOf REG_MDM_STATUS (events (resetHalt T s)) =
        r1 ++ Some v1 :: r2 ++ Some v2 :: r3 ++ [Some v3]
      /\ Z.land v1 REG_MDM_STATUS_SYS_NRESET = REG_MDM_STATUS_SYS_NRESET
      /\ Z.land v2 REG_MDM_STATUS_SYS_NRESET = 0
      /\ safeState v3.
Proof.
  intros K H T s Rg Apart R.
  destruct (resetHalt_unfold T s) as [E Rp]. cbv zeta in E, Rp.
  rewrite R in Rp.
  destruct (result (phase1 T s)) eqn:R1; [|discriminate].
  destruct (result (phase2 T (final (phase1 T s)))) eqn:R2; [|discriminate].
  destruct (result (phase3 T (final (phase2 T (final (phase1 T s))))))
    eqn:R3; [|discriminate].
  rewrite <- Rp in E.
  destruct (phase1_hit T _ R1) as (r1 & v1 & E1 & M1).
  destruct (phase2_hit T _ R2) as (r2 & v2 & E2 & M2).
  destruct (phase3_hit T _ R3) as (r3 & v3 & E3 & M3).
  exists r1, v1, r2, v2, r3, v3.
  rewrite E, !readsOf_app, E1, E2, E3, phase4_no_status, phase5_no_status.
  split; [now rewrite !app_nil_r, <- !app_assoc|].
  unfold pollMatch in M1, M2. apply Z.eqb_eq in M1, M2.
  rewrite (u32_all_ones _ Rg) in M1. rewrite Z.land_0_l in M2.
  split; [exact M1|]. split; [exact M2|]. now apply safe_match.
Qed.

Lemma resetHalt_status_sequence_witness :
  let s :=
    Sim.probe ([Sim.ack; Some 0x00; Some 0x08; Sim.ack; Some 0x00; Sim.ack;
                Some 0x0E; Some 0x0A; Sim.ack; Sim.ack]
                 ++ Sim.attempt Sim.haltedValue ++ [Sim.ack]) in
  exists r1 v1 r2 v2 r3 v3,
    readsOf REG_MDM_STATUS (events (@resetHalt Sim.k20 _ Sim.scripted s)) =
      r1 ++ Some v1 :: r2 ++ Some v2 :: r3 ++ [Some v3]
    /\ Z.land v1 0x08 = 0x08
    /\ Z.land v2 0x08 = 0
    /\ @safeState Sim.k20 v3.
Proof.
  intros s.
  apply (resetHalt_status_sequence Sim.k20 Sim.Script Sim.scripted s).
  - simpl. lia.
  - reflexivity.
  - reflexivity.
Defined.
